(** * The calculator tools of [examples/mcp-server-calculator/server.py]

    A shallow embedding of the arithmetic tools ([add], [subtract],
    [multiply], [divide], [power], [sqrt]) and of the expression evaluator
    [calculate] with its tree walker [eval_expr].

    The Python the tools run on is modelled as far as the tools use it:
    - objects are the constants an [ast.Constant] can hold ([value]);
    - a call returns or raises ([result]), with the class and [str(e)] of
      what is raised ([exn]);
    - [int] is [Z]; [float] is the kernel's binary64 ([PrimFloat.float]), so
      [+], [-], [*], [/] and [math.sqrt] are the IEEE 754 operations;
    - [round] is CPython's: exact for [int], correctly rounded through
      the decimal expansion for [float].
    What CPython computes through the C library ([float] powers), the
    arithmetic of non-real operands and the parser [ast.parse] are
    collected in the class [Host]; the theorems hold for every host.
    A tool is an [async def] without an [await] in it: it is modelled by
    what awaiting its coroutine returns or raises. *)

From Stdlib Require Import ZArith List String Ascii Bool Lia Floats.
Import ListNotations.

Local Open Scope string_scope.
Local Open Scope Z_scope.

(** ** Python results *)

Module Py.

(** The exception classes met on the paths of the tools, as an [except]
    clause matches them (a subclass counts as its base). *)
Inductive exn_class : Type :=
| SyntaxError
| ValueError
| KeyError
| ZeroDivisionError
| TypeError
| OverflowError
| RecursionError
| MemoryError.

(** An exception: its class and the text of [str(e)]. *)
Record exn : Type := mk_exn { exn_type : exn_class; exn_str : string }.

Inductive result (A : Type) : Type :=
| Ok (a : A)
| Raise (e : exn).

Arguments Ok {A} a.
Arguments Raise {A} e.

Definition bind {A B : Type} (r : result A) (k : A -> result B) : result B :=
  match r with
  | Ok a => k a
  | Raise e => Raise e
  end.

(** The constants of Python: what [ast.Constant.value] can be. *)
Inductive value : Type :=
| VNone
| VEllipsis
| VBool (b : bool)
| VInt (n : Z)
| VFloat (x : float)
| VComplex (re im : float)
| VStr (s : string)
| VBytes (s : string).

(** [type(v).__name__] *)
Definition type_name (v : value) : string :=
  match v with
  | VNone => "NoneType"
  | VEllipsis => "ellipsis"
  | VBool _ => "bool"
  | VInt _ => "int"
  | VFloat _ => "float"
  | VComplex _ _ => "complex"
  | VStr _ => "str"
  | VBytes _ => "bytes"
  end.

(** A numeric outcome of a tool is an [int] or a [float]; an error outcome
    is a [str] (the tools return [Union[float, str]]). *)
Definition is_numeric (v : value) : bool :=
  match v with
  | VInt _ | VFloat _ => true
  | _ => false
  end.

Definition is_error (v : value) : bool :=
  match v with
  | VStr _ => true
  | _ => false
  end.

(** *** Correct rounding to binary64 *)

(** [a / b] rounded to the nearest integer, ties to even ([0 < b]). *)
Definition rne_div (a b : Z) : Z :=
  let q := a / b in
  match 2 * (a mod b) ?= b with
  | Lt => q
  | Gt => q + 1
  | Eq => if Z.even q then q else q + 1
  end.

(** [q * 2^l <= p], for [l] of either sign. *)
Definition ratio_ge_pow2 (p q l : Z) : bool :=
  if 0 <=? l then q * 2 ^ l <=? p else q <=? p * 2 ^ (- l).

(** The integer part of [log2 (p / q)], for [0 < p] and [0 < q]. *)
Definition floor_log2_ratio (p q : Z) : Z :=
  let l := Z.log2 p - Z.log2 q in
  if ratio_ge_pow2 p q l then l else l - 1.

(** The binary64 number nearest to [(-1)^s * p / q] (ties to even), for
    [0 <= p] and [0 < q]: 53 bits of mantissa, exponents from [-1074]
    (subnormal numbers) to [971], and an infinity beyond. *)
Definition binary64_of_ratio (s : bool) (p q : Z) : spec_float :=
  if p =? 0 then S754_zero s
  else
    let e := Z.max (floor_log2_ratio p q - 52) (-1074) in
    let m := if 0 <=? e then rne_div p (q * 2 ^ e) else rne_div (p * 2 ^ (- e)) q in
    let '(m, e) := if m =? 2 ^ 53 then (2 ^ 52, e + 1) else (m, e) in
    match m with
    | Zpos mp => if e <=? 971 then S754_finite s mp e else S754_infinity s
    | _ => S754_zero s
    end.

(** [float(n)] for an [int] (PyLong_AsDouble). *)
Definition int_to_float (n : Z) : result float :=
  match binary64_of_ratio (n <? 0) (Z.abs n) 1 with
  | S754_infinity _ => Raise (mk_exn OverflowError "int too large to convert to float")
  | r => Ok (SF2Prim r)
  end.

(** [a / b] for two [int]s (long_true_divide): the quotient, correctly
    rounded. *)
Definition int_truediv (a b : Z) : result float :=
  if b =? 0 then Raise (mk_exn ZeroDivisionError "division by zero")
  else
    match binary64_of_ratio (xorb (a <? 0) (b <? 0)) (Z.abs a) (Z.abs b) with
    | S754_infinity _ =>
        Raise (mk_exn OverflowError "integer division result too large for a float")
    | r => Ok (SF2Prim r)
    end.

(** [a / b] for two [float]s (float_div; the wording of the message is
    CPython 3.13's and earlier). *)
Definition float_truediv (a b : float) : result float :=
  if (b =? 0)%float then Raise (mk_exn ZeroDivisionError "float division by zero")
  else Ok (a / b)%float.

(** *** The builtin [round(number, ndigits)] *)

(** [int.__round__]: the [int] itself for [0 <= ndigits], otherwise the
    nearest multiple of [10 ** -ndigits], ties to the even multiple. *)
Definition int_round (n ndigits : Z) : Z :=
  if 0 <=? ndigits then n
  else rne_div n (10 ^ (- ndigits)) * 10 ^ (- ndigits).

Definition NDIGITS_MAX : Z := 323.
Definition NDIGITS_MIN : Z := -308.

(** [double_round] of floatobject.c for the finite number
    [(-1)^s * m * 2^e]: the decimal expansion is rounded to [ndigits]
    places, ties to even (dtoa, mode 3), and read back (strtod). *)
Definition double_round (s : bool) (m : positive) (e ndigits : Z) : result float :=
  let num := Zpos m * 2 ^ Z.max e 0 * 10 ^ Z.max ndigits 0 in
  let den := 2 ^ Z.max (- e) 0 * 10 ^ Z.max (- ndigits) 0 in
  let k := rne_div num den in
  match binary64_of_ratio s (k * 10 ^ Z.max (- ndigits) 0) (10 ^ Z.max ndigits 0) with
  | S754_infinity _ =>
      Raise (mk_exn OverflowError "rounded value too large to represent")
  | r => Ok (SF2Prim r)
  end.

(** [float.__round__] with [ndigits] given: infinities, NaN and zeros are
    returned as they are. *)
Definition float_round (x : float) (ndigits : Z) : result float :=
  match Prim2SF x with
  | S754_finite s m e =>
      if ndigits >? NDIGITS_MAX then Ok x
      else if ndigits <? NDIGITS_MIN then Ok (0 * x)%float
      else double_round s m e ndigits
  | _ => Ok x
  end.

(** [round(v, ndigits)]: [bool] inherits [int.__round__]; the other
    constants have no [__round__]. *)
Definition round (v : value) (ndigits : Z) : result value :=
  match v with
  | VInt n => Ok (VInt (int_round n ndigits))
  | VBool b => Ok (VInt (int_round (Z.b2z b) ndigits))
  | VFloat x => bind (float_round x ndigits) (fun r => Ok (VFloat r))
  | _ => Raise (mk_exn TypeError ("type " ++ type_name v ++ " doesn't define __round__ method"))
  end.

End Py.

Import Py.

(** ** The syntax trees of [ast] *)

Module Ast.

(** [ast.operator]: the classes a [BinOp] can carry in [op]. *)
Inductive operator : Type :=
| Add | Sub | Mult | MatMult | Div | Mod | Pow
| LShift | RShift | BitOr | BitXor | BitAnd | FloorDiv.

(** [ast.unaryop] *)
Inductive unaryop : Type :=
| Invert | Not | UAdd | USub.

(** The expression classes that [eval_expr] does not look into; their
    fields are left out. *)
Inductive other_kind : Type :=
| BoolOp | NamedExpr | Lambda | IfExp | Dict | SetDisplay | ListComp | SetComp
| DictComp | GeneratorExp | Await | Yield | YieldFrom | Compare
| FormattedValue | JoinedStr | Subscript | Starred | ListDisplay | Tuple | Slice.

(** [ast.expr], the type of [ast.parse(_, mode='eval').body]. The keyword
    arguments of a [Call] are left out. *)
#[warnings="-register-all"]
Inductive expr : Type :=
| Constant (value : value)
| BinOp (left : expr) (op : operator) (right : expr)
| UnaryOp (op : unaryop) (operand : expr)
| Name (id : string)
| Call (func : expr) (args : list expr)
| Attribute (value : expr) (attr : string)
| Other (kind : other_kind).

Definition operator_name (op : operator) : string :=
  match op with
  | Add => "Add" | Sub => "Sub" | Mult => "Mult" | MatMult => "MatMult"
  | Div => "Div" | Mod => "Mod" | Pow => "Pow" | LShift => "LShift"
  | RShift => "RShift" | BitOr => "BitOr" | BitXor => "BitXor"
  | BitAnd => "BitAnd" | FloorDiv => "FloorDiv"
  end.

Definition unaryop_name (op : unaryop) : string :=
  match op with
  | Invert => "Invert" | Not => "Not" | UAdd => "UAdd" | USub => "USub"
  end.

Definition other_name (k : other_kind) : string :=
  match k with
  | BoolOp => "BoolOp" | NamedExpr => "NamedExpr" | Lambda => "Lambda"
  | IfExp => "IfExp" | Dict => "Dict" | SetDisplay => "Set"
  | ListComp => "ListComp" | SetComp => "SetComp" | DictComp => "DictComp"
  | GeneratorExp => "GeneratorExp" | Await => "Await" | Yield => "Yield"
  | YieldFrom => "YieldFrom" | Compare => "Compare"
  | FormattedValue => "FormattedValue" | JoinedStr => "JoinedStr"
  | Subscript => "Subscript" | Starred => "Starred" | ListDisplay => "List"
  | Tuple => "Tuple" | Slice => "Slice"
  end.

(** [type(node).__name__] *)
Definition node_name (node : expr) : string :=
  match node with
  | Constant _ => "Constant"
  | BinOp _ _ _ => "BinOp"
  | UnaryOp _ _ => "UnaryOp"
  | Name _ => "Name"
  | Call _ _ => "Call"
  | Attribute _ _ => "Attribute"
  | Other k => other_name k
  end.

(** [repr] of a class of the module [ast] (CPython 3.9 and later). *)
Definition class_repr (name : string) : string :=
  "<class 'ast." ++ name ++ "'>".

(** The nodes of a tree that [eval_expr] can reach: itself and, through
    [BinOp] and [UnaryOp], its operands. *)
Inductive subtree (t : expr) : expr -> Prop :=
| subtree_refl : subtree t t
| subtree_left : forall l op r, subtree t l -> subtree t (BinOp l op r)
| subtree_right : forall l op r, subtree t r -> subtree t (BinOp l op r)
| subtree_operand : forall op x, subtree t x -> subtree t (UnaryOp op x).

End Ast.

Import Ast.

(** ** A reference parser for short arithmetic expressions

    [ast.parse] is CPython's. [reference_parse] reads a fragment of its
    expression grammar (the binary and unary operators with their
    precedence, decimal literals, plain strings, names, calls with
    positional arguments, attribute access and parentheses) on inputs of at
    most [max_reference_length] characters, and says nothing ([None])
    about anything else. *)

Module Reference.

Inductive token : Type :=
| T_NUMBER (v : value)
| T_STRING (s : string)
| T_NAME (id : string)
| T_OP (s : string).

Definition code (c : ascii) : N := N_of_ascii c.

Definition is_digit (c : ascii) : bool :=
  ((48 <=? code c) && (code c <=? 57))%N.

Definition is_name_start (c : ascii) : bool :=
  (((65 <=? code c) && (code c <=? 90)) || ((97 <=? code c) && (code c <=? 122))
   || (code c =? 95))%N.

Definition is_name_char (c : ascii) : bool :=
  is_name_start c || is_digit c.

Definition is_blank (c : ascii) : bool :=
  ((code c =? 32) || (code c =? 9))%N.

Definition is_quote (c : ascii) : bool :=
  ((code c =? 39) || (code c =? 34))%N.

(** A character a plain string literal may hold: printable ASCII, no
    backslash. *)
Definition is_plain (c : ascii) : bool :=
  ((32 <=? code c) && (code c <=? 126) && negb (code c =? 92))%N.

Fixpoint span (f : ascii -> bool) (cs : list ascii) : list ascii * list ascii :=
  match cs with
  | c :: cs' =>
      if f c then let (taken, rest) := span f cs' in (c :: taken, rest)
      else ([], cs)
  | [] => ([], [])
  end.

Definition digits_value (ds : list ascii) : Z :=
  fold_left (fun n c => 10 * n + (Z.of_N (code c) - 48)) ds 0.

Definition starts_with (f : ascii -> bool) (cs : list ascii) : bool :=
  match cs with
  | c :: _ => f c
  | [] => false
  end.

(** A decimal literal: [digits] or [digits.digits], without a leading
    zero before other digits, and not followed by a name character. *)
Definition lex_number (cs : list ascii) : option (token * list ascii) :=
  let (ds, rest) := span is_digit cs in
  if starts_with (fun c => (code c =? 48)%N) ds && (1 <? List.length ds)%nat then None
  else
    match rest with
    | c :: rest' =>
        if (code c =? 46)%N then
          let (fs, rest'') := span is_digit rest' in
          if starts_with is_name_char rest'' then None
          else
            let x := binary64_of_ratio false (digits_value (ds ++ fs))
                       (10 ^ Z.of_nat (List.length fs)) in
            Some (T_NUMBER (VFloat (SF2Prim x)), rest'')
        else if is_name_char c then None
        else Some (T_NUMBER (VInt (digits_value ds)), rest)
    | [] => Some (T_NUMBER (VInt (digits_value ds)), rest)
    end.

(** A string literal in one pair of quotes, with no prefix, no escape and
    no literal next to it. *)
Definition lex_string (quote : ascii) (cs : list ascii) : option (token * list ascii) :=
  let (body, rest) := span (fun c => negb (code c =? code quote)%N) cs in
  match rest with
  | _ :: rest' =>
      if forallb is_plain body && negb (starts_with is_quote rest')
      then Some (T_STRING (string_of_list_ascii body), rest')
      else None
  | [] => None
  end.

Definition lex_name (cs : list ascii) : option (token * list ascii) :=
  let (name, rest) := span is_name_char cs in
  if starts_with is_quote rest then None
  else Some (T_NAME (string_of_list_ascii name), rest).

Definition single_operators : list ascii :=
  list_ascii_of_string "+-*/%@&|^~(),.".

Definition lex_operator (c : ascii) (cs : list ascii) : option (token * list ascii) :=
  match cs with
  | c' :: cs' =>
      if existsb (String.eqb (String c (String c' EmptyString))) ["**"; "//"; "<<"; ">>"]
      then Some (T_OP (String c (String c' EmptyString)), cs')
      else if (code c =? 46)%N && is_digit c' then None
      else if existsb (Ascii.eqb c) single_operators
      then Some (T_OP (String c EmptyString), cs)
      else None
  | [] =>
      if existsb (Ascii.eqb c) single_operators
      then Some (T_OP (String c EmptyString), cs)
      else None
  end.

Fixpoint lex (fuel : nat) (cs : list ascii) : option (list token) :=
  match fuel with
  | O => None
  | S fuel' =>
      match cs with
      | [] => Some []
      | c :: cs' =>
          if is_blank c then lex fuel' cs'
          else
            let next :=
              if is_digit c then lex_number cs
              else if is_name_start c then lex_name cs
              else if is_quote c then lex_string c cs'
              else lex_operator c cs' in
            match next with
            | Some (t, rest) =>
                match lex fuel' rest with
                | Some ts => Some (t :: ts)
                | None => None
                end
            | None => None
            end
      end
  end.

(** What a parsing step answers: a tree and the tokens left, a certain
    [SyntaxError], or nothing. *)
Inductive step (A : Type) : Type :=
| Parsed (a : A) (rest : list token)
| Invalid
| Unanswered.

Arguments Parsed {A} a rest.
Arguments Invalid {A}.
Arguments Unanswered {A}.

Definition and_then {A B : Type} (s : step A) (k : A -> list token -> step B) : step B :=
  match s with
  | Parsed a rest => k a rest
  | Invalid => Invalid
  | Unanswered => Unanswered
  end.

(** The binary operators by precedence level, loosest first; each level
    associates to the left. [**] is read by [parse_factor]. *)
Definition binary_at (level : nat) (s : string) : option operator :=
  match level with
  | 0%nat => if s =? "|" then Some BitOr else None
  | 1%nat => if s =? "^" then Some BitXor else None
  | 2%nat => if s =? "&" then Some BitAnd else None
  | 3%nat => if s =? "<<" then Some LShift else if s =? ">>" then Some RShift else None
  | 4%nat => if s =? "+" then Some Add else if s =? "-" then Some Sub else None
  | 5%nat =>
      if s =? "*" then Some Mult else if s =? "/" then Some Div
      else if s =? "//" then Some FloorDiv else if s =? "%" then Some Mod
      else if s =? "@" then Some MatMult else None
  | _ => None
  end%string.

Definition unary_of (s : string) : option unaryop :=
  (if s =? "-" then Some USub else if s =? "+" then Some UAdd
   else if s =? "~" then Some Invert else None)%string.

(** Keywords that start a statement: none can stand where an operand is
    expected. *)
Definition statement_keywords : list string :=
  ["import"; "from"; "def"; "class"; "return"; "del"; "pass"; "break";
   "continue"; "global"; "nonlocal"; "assert"; "raise"; "try"; "except";
   "finally"; "while"; "with"].

(** The other keywords that are not constants: left unanswered. *)
Definition expression_keywords : list string :=
  ["and"; "as"; "async"; "await"; "elif"; "else"; "for"; "if"; "in"; "is";
   "lambda"; "not"; "or"; "yield"].

Definition mem (s : string) (l : list string) : bool :=
  existsb (String.eqb s) l.

Definition parse_name (id : string) (rest : list token) : step expr :=
  (if id =? "True" then Parsed (Constant (VBool true)) rest
   else if id =? "False" then Parsed (Constant (VBool false)) rest
   else if id =? "None" then Parsed (Constant VNone) rest
   else if mem id statement_keywords then Invalid
   else if mem id expression_keywords then Unanswered
   else Parsed (Name id) rest)%string.

Definition is_op (s : string) (t : token) : bool :=
  match t with
  | T_OP o => (o =? s)%string
  | _ => false
  end.

(** Recursive descent, one unit of [fuel] for each call in progress. *)
Fixpoint parse_binary (fuel : nat) (level : nat) (ts : list token) {struct fuel}
  : step expr :=
  match fuel with
  | O => Unanswered
  | S fuel' =>
      if (6 <=? level)%nat then parse_factor fuel' ts
      else and_then (parse_binary fuel' (S level) ts) (parse_binary_rest fuel' level)
  end
with parse_binary_rest (fuel : nat) (level : nat) (lhs : expr) (ts : list token)
  {struct fuel} : step expr :=
  match fuel with
  | O => Unanswered
  | S fuel' =>
      match ts with
      | T_OP o :: rest =>
          match binary_at level o with
          | Some op =>
              and_then (parse_binary fuel' (S level) rest)
                (fun rhs => parse_binary_rest fuel' level (BinOp lhs op rhs))
          | None => Parsed lhs ts
          end
      | _ => Parsed lhs ts
      end
  end
with parse_factor (fuel : nat) (ts : list token) {struct fuel} : step expr :=
  match fuel with
  | O => Unanswered
  | S fuel' =>
      match ts with
      | [] => Invalid
      | T_NUMBER v :: rest => parse_trailers fuel' (Constant v) rest
      | T_STRING s :: rest => parse_trailers fuel' (Constant (VStr s)) rest
      | T_NAME id :: rest => and_then (parse_name id rest) (parse_trailers fuel')
      | T_OP o :: rest =>
          match unary_of o with
          | Some op => and_then (parse_factor fuel' rest) (fun x => Parsed (UnaryOp op x))
          | None =>
              if (o =? "(")%string then
                and_then (parse_binary fuel' 0 rest)
                  (fun e rest' =>
                     match rest' with
                     | [] => Invalid
                     | t :: rest'' =>
                         if is_op ")" t then parse_trailers fuel' e rest''
                         else Unanswered
                     end)
              else Unanswered
          end
      end
  end
with parse_trailers (fuel : nat) (e : expr) (ts : list token) {struct fuel}
  : step expr :=
  match fuel with
  | O => Unanswered
  | S fuel' =>
      match ts with
      | T_OP o :: rest =>
          if (o =? ".")%string then
            match rest with
            | T_NAME id :: rest' =>
                if mem id statement_keywords || mem id expression_keywords
                   || mem id ["True"; "False"; "None"]
                then Unanswered
                else parse_trailers fuel' (Attribute e id) rest'
            | _ => Unanswered
            end
          else if (o =? "(")%string then
            and_then (parse_args fuel' rest)
              (fun args => parse_trailers fuel' (Call e args))
          else if (o =? "**")%string then
            and_then (parse_factor fuel' rest) (fun x => Parsed (BinOp e Pow x))
          else Parsed e ts
      | _ => Parsed e ts
      end
  end
with parse_args (fuel : nat) (ts : list token) {struct fuel} : step (list expr) :=
  match fuel with
  | O => Unanswered
  | S fuel' =>
      match ts with
      | [] => Invalid
      | t :: rest =>
          if is_op ")" t then Parsed [] rest
          else
            and_then (parse_binary fuel' 0 ts)
              (fun a rest' =>
                 match rest' with
                 | [] => Invalid
                 | t' :: rest'' =>
                     if is_op ")" t' then Parsed [a] rest''
                     else if is_op "," t' then
                       and_then (parse_args fuel' rest'')
                         (fun more => Parsed (a :: more))
                     else Unanswered
                 end)
      end
  end.

Definition max_reference_length : nat := 100.

(** What the reference parser knows of [ast.parse(s, mode='eval')]: the
    tree of its [body], or that it raises a [SyntaxError]. *)
Inductive answer : Type :=
| Tree (body : expr)
| Syntax_error.

Definition reference_parse (s : string) : option answer :=
  let cs := list_ascii_of_string s in
  if (max_reference_length <? List.length cs)%nat || starts_with is_blank cs then None
  else
    match lex (S (List.length cs)) cs with
    | Some ts =>
        match parse_binary (10 * S (List.length ts)) 0 ts with
        | Parsed e [] => Some (Tree e)
        | Parsed _ (_ :: _) => None
        | Invalid => Some Syntax_error
        | Unanswered => None
        end
    | None => None
    end.

End Reference.

Import Reference.

(** ** The host interpreter *)

(** [r] is what the reference parser answered: the tree, or a
    [SyntaxError] whose text is the host's. *)
Definition parses_as (r : result expr) (a : answer) : Prop :=
  match a with
  | Tree body => r = Ok body
  | Syntax_error => exists msg, r = Raise (mk_exn SyntaxError msg)
  end.

(** What the tools take from CPython without this development computing
    it:
    - [ast_parse s] is [ast.parse(s, mode='eval').body], bound only to
      agree with the reference parser where that one answers;
    - [float_pow] is [float.__pow__] (the C library's [pow], which can
      raise [ZeroDivisionError] or [OverflowError] and returns a
      [complex] for a negative base and a fractional exponent);
    - [other_binop] and [other_neg] are the functions of [operator] on
      operands that are not both [bool], [int] or [float]. *)
Class Host : Type := {
  ast_parse : string -> result expr;
  float_pow : float -> float -> result value;
  other_binop : operator -> value -> value -> result value;
  other_neg : value -> result value;
  ast_parse_reference :
    forall s a, reference_parse s = Some a -> parses_as (ast_parse s) a
}.

(** A host to run examples on. It parses what the reference parser
    parses and nothing else; every [float] power overflows in it, and it
    has no operation on operands beyond the reals. *)
Definition reference_host : Host.
Proof.
  refine {|
    ast_parse s :=
      match reference_parse s with
      | Some (Tree body) => Ok body
      | _ => Raise (mk_exn SyntaxError "invalid syntax (<unknown>, line 1)")
      end;
    float_pow _ _ :=
      Raise (mk_exn OverflowError "(34, 'Numerical result out of range')");
    other_binop _ a b :=
      Raise (mk_exn TypeError
               ("unsupported operand type(s): '" ++ type_name a ++ "' and '"
                ++ type_name b ++ "'"));
    other_neg a :=
      Raise (mk_exn TypeError ("bad operand type for unary -: '" ++ type_name a ++ "'"))
  |}.
  intros s a Ha. rewrite Ha. destruct a; simpl.
  - reflexivity.
  - eexists. reflexivity.
Defined.

(** ** The module [operator] on real operands *)

Module Operator.

Inductive real : Type :=
| RInt (n : Z)
| RFloat (x : float).

(** [bool] is a subclass of [int]. *)
Definition as_real (v : value) : option real :=
  match v with
  | VBool b => Some (RInt (Z.b2z b))
  | VInt n => Some (RInt n)
  | VFloat x => Some (RFloat x)
  | _ => None
  end.

Definition to_float (r : real) : result float :=
  match r with
  | RInt n => int_to_float n
  | RFloat x => Ok x
  end.

Section WithHost.

Context {host : Host}.

(** Two [int]s stay in [int]; an [int] next to a [float] is converted
    first. *)
Definition real_binop (op : operator) (on_int : Z -> Z -> result value)
    (on_float : float -> float -> result value) (a b : value) : result value :=
  match as_real a, as_real b with
  | Some (RInt m), Some (RInt n) => on_int m n
  | Some x, Some y =>
      bind (to_float x) (fun x' => bind (to_float y) (fun y' => on_float x' y'))
  | _, _ => other_binop op a b
  end.

Definition add : value -> value -> result value :=
  real_binop Add (fun m n => Ok (VInt (m + n))) (fun x y => Ok (VFloat (x + y))).

Definition sub : value -> value -> result value :=
  real_binop Sub (fun m n => Ok (VInt (m - n))) (fun x y => Ok (VFloat (x - y))).

Definition mul : value -> value -> result value :=
  real_binop Mult (fun m n => Ok (VInt (m * n))) (fun x y => Ok (VFloat (x * y))).

Definition truediv : value -> value -> result value :=
  real_binop Div
    (fun m n => bind (int_truediv m n) (fun r => Ok (VFloat r)))
    (fun x y => bind (float_truediv x y) (fun r => Ok (VFloat r))).

(** [int ** int] is exact for an exponent that is not negative, and a
    [float] power otherwise. *)
Definition pow : value -> value -> result value :=
  real_binop Pow
    (fun m n =>
       if 0 <=? n then Ok (VInt (m ^ n))
       else bind (int_to_float m) (fun x => bind (int_to_float n) (fun y => float_pow x y)))
    float_pow.

Definition neg (a : value) : result value :=
  match as_real a with
  | Some (RInt n) => Ok (VInt (- n))
  | Some (RFloat x) => Ok (VFloat (- x))
  | None => other_neg a
  end.

End WithHost.

End Operator.

(** ** server.py *)

(** The module's configuration, read from the environment at import:
    [MAX_PRECISION = int(os.getenv("MAX_PRECISION", "10"))] and
    [LOG_LEVEL = os.getenv("LOG_LEVEL", "info")]. *)
Record Globals : Type := {
  MAX_PRECISION : Z;
  LOG_LEVEL : string
}.

Definition default_globals : Globals :=
  {| MAX_PRECISION := 10; LOG_LEVEL := "info" |}.

(** [math.sqrt]: a NaN that the argument was not is a domain error. *)
Definition math_sqrt (x : float) : result float :=
  let r := PrimFloat.sqrt x in
  if is_nan r && negb (is_nan x) then Raise (mk_exn ValueError "math domain error")
  else Ok r.

(** [operators[key]] for a key that the dictionary lacks: a [KeyError],
    whose [str] is the [repr] of the key. *)
Definition key_error (name : string) : exn :=
  mk_exn KeyError (class_repr name).

(** [raise ValueError(f"Unsupported operation: {type(node)}")] *)
Definition unsupported (node : expr) : exn :=
  mk_exn ValueError ("Unsupported operation: " ++ class_repr (node_name node)).

(** The classes that the [except] clause of [calculate] names. *)
Definition caught (c : exn_class) : bool :=
  match c with
  | SyntaxError | ValueError | KeyError | ZeroDivisionError => true
  | _ => false
  end.

(** [try: body except (...) as e: return f"Error: Invalid expression - {str(e)}"] *)
Definition try_except (body : result value) : result value :=
  match body with
  | Ok v => Ok v
  | Raise e =>
      if caught (exn_type e) then Ok (VStr ("Error: Invalid expression - " ++ exn_str e))
      else Raise e
  end.

Section Tools.

Context {host : Host}.

Definition add (g : Globals) (a b : float) : result value :=
  let result := (a + b)%float in
  round (VFloat result) (MAX_PRECISION g).

Definition subtract (g : Globals) (a b : float) : result value :=
  let result := (a - b)%float in
  round (VFloat result) (MAX_PRECISION g).

Definition multiply (g : Globals) (a b : float) : result value :=
  let result := (a * b)%float in
  round (VFloat result) (MAX_PRECISION g).

Definition divide (g : Globals) (a b : float) : result value :=
  if (b =? 0)%float then Ok (VStr "Error: Division by zero")
  else
    bind (float_truediv a b) (fun result =>
    round (VFloat result) (MAX_PRECISION g)).

Definition power (g : Globals) (base exponent : float) : result value :=
  bind (float_pow base exponent) (fun result =>
  round result (MAX_PRECISION g)).

Definition sqrt (g : Globals) (n : float) : result value :=
  if (n <? 0)%float then Ok (VStr "Error: Cannot calculate square root of negative number")
  else
    bind (math_sqrt n) (fun result =>
    round (VFloat result) (MAX_PRECISION g)).

(** The dictionary [operators] of [calculate], by the arity of its keys:
    [ast] keeps the classes of binary and of unary operators apart. *)
Definition operators_binary (op : operator) : result (value -> value -> result value) :=
  match op with
  | Add => Ok Operator.add
  | Sub => Ok Operator.sub
  | Mult => Ok Operator.mul
  | Div => Ok Operator.truediv
  | Pow => Ok Operator.pow
  | _ => Raise (key_error (operator_name op))
  end.

Definition operators_unary (op : unaryop) : result (value -> result value) :=
  match op with
  | USub => Ok Operator.neg
  | _ => Raise (key_error (unaryop_name op))
  end.

(** The recursion limit of the interpreter is not part of the model: the
    walk of CPython raises [RecursionError] on a tree deeper than the
    frames it has left. *)
Fixpoint eval_expr (node : expr) : result value :=
  match node with
  | Constant value => Ok value
  | BinOp node_left op node_right =>
      bind (eval_expr node_left) (fun left_ =>
      bind (eval_expr node_right) (fun right_ =>
      bind (operators_binary op) (fun f => f left_ right_)))
  | UnaryOp op node_operand =>
      bind (eval_expr node_operand) (fun operand =>
      bind (operators_unary op) (fun f => f operand))
  | _ => Raise (unsupported node)
  end.

(** The body of the [try] statement of [calculate]. *)
Definition calculate_body (g : Globals) (expression : string) : result value :=
  bind (ast_parse expression) (fun tree =>
  bind (eval_expr tree) (fun result =>
  round result (MAX_PRECISION g))).

Definition calculate (g : Globals) (expression : string) : result value :=
  try_except (calculate_body g expression).


End Tools.

(** ** The allow-list, as a property of trees and of outcomes *)

Definition allowed_binary (op : operator) : bool :=
  match op with
  | Add | Sub | Mult | Div | Pow => true
  | _ => false
  end.

Definition allowed_unary (op : unaryop) : bool :=
  match op with
  | USub => true
  | _ => false
  end.

(** Every node that the walk reaches is a constant, a binary operation
    with an operator of the table, or a negation. *)
Fixpoint permitted (node : expr) : bool :=
  match node with
  | Constant _ => true
  | BinOp l op r => permitted l && allowed_binary op && permitted r
  | UnaryOp op x => allowed_unary op && permitted x
  | _ => false
  end.

(** The failures by which [eval_expr] rejects a construct: the
    [ValueError] it raises itself, and the [KeyError] of the table. *)
Definition unsupported_operation (e : exn) : bool :=
  match exn_type e with
  | ValueError => prefix "Unsupported operation: <class 'ast." (exn_str e)
  | KeyError => prefix "<class 'ast." (exn_str e)
  | _ => false
  end.

(** The same, read off the string that [calculate] returns. *)
Definition unsupported_outcome (r : result value) : bool :=
  match r with
  | Ok (VStr s) =>
      prefix "Error: Invalid expression - Unsupported operation: <class 'ast." s
      || prefix "Error: Invalid expression - <class 'ast." s
  | _ => false
  end.

(** ** The prompt template *)

(** The dictionary [templates] of [calculate_prompt_template], in the
    order it is written. *)
Definition templates : list (string * string) :=
  [("add", "Please add {a} and {b}");
   ("subtract", "Please subtract {b} from {a}");
   ("multiply", "Please multiply {a} by {b}");
   ("divide", "Please divide {a} by {b}")].

(** [d.get(key, default)] *)
Fixpoint dict_get (d : list (string * string)) (key default : string) : string :=
  match d with
  | (k, v) :: d' => if (k =? key)%string then v else dict_get d' key default
  | [] => default
  end.

Definition calculate_prompt_template (operation : string) : string :=
  dict_get templates operation "Please perform a calculation".

(** ** Reference readings of a tree *)


Definition is_real (v : value) : bool :=
  match v with
  | VBool _ | VInt _ | VFloat _ => true
  | _ => false
  end.





(** The reference host with another [float] power. *)
Definition host_with_pow (pow : float -> float -> result value) : Host :=
  {| ast_parse := @ast_parse reference_host;
     float_pow := pow;
     other_binop := @other_binop reference_host;
     other_neg := @other_neg reference_host;
     ast_parse_reference := @ast_parse_reference reference_host |}.

(** ** Rounding: bounds *)

Lemma rne_div_le_self (a b : Z) : 0 <= a -> 0 < b -> rne_div a b <= a.
Proof.
  intros Ha Hb. unfold rne_div.
  pose proof (Z.div_mod a b ltac:(lia)) as Hdm.
  pose proof (Z.mod_pos_bound a b Hb) as Hr.
  assert (0 <= a / b) by (apply Z.div_pos; lia).
  destruct (2 * (a mod b) ?= b) eqn:Hc;
    [apply Z.compare_eq in Hc | rewrite Z.compare_lt_iff in Hc | rewrite Z.compare_gt_iff in Hc];
    try destruct (Z.even (a / b)); nia.
Qed.

Lemma rne_div_le_bound (a b n : Z) : 0 < b -> a <= n * b -> rne_div a b <= n.
Proof.
  intros Hb Ha. unfold rne_div.
  pose proof (Z.div_mod a b ltac:(lia)) as Hdm.
  pose proof (Z.mod_pos_bound a b Hb) as Hr.
  destruct (2 * (a mod b) ?= b) eqn:Hc;
    [apply Z.compare_eq in Hc | rewrite Z.compare_lt_iff in Hc | rewrite Z.compare_gt_iff in Hc];
    try destruct (Z.even (a / b)); nia.
Qed.

Lemma floor_log2_ratio_lower (p q : Z) :
  0 < p -> 0 < q -> 0 <= floor_log2_ratio p q -> q * 2 ^ floor_log2_ratio p q <= p.
Proof.
  intros Hp Hq. unfold floor_log2_ratio, ratio_ge_pow2.
  pose proof (Z.log2_spec p Hp) as [Hp1 _].
  pose proof (Z.log2_spec q Hq) as [_ Hq2].
  pose proof (Z.log2_nonneg q) as Hlq.
  set (l := Z.log2 p - Z.log2 q) in *.
  destruct (0 <=? l) eqn:Hl.
  - destruct (q * 2 ^ l <=? p) eqn:Hle; intros Hfl.
    + apply Z.leb_le in Hle. exact Hle.
    + assert (H2 : 2 ^ Z.log2 p = 2 ^ (l - 1) * 2 ^ Z.succ (Z.log2 q)).
      { rewrite <- Z.pow_add_r by lia. f_equal. lia. }
      assert (0 < 2 ^ (l - 1)) by (apply Z.pow_pos_nonneg; lia).
      nia.
  - apply Z.leb_gt in Hl. destruct (q <=? p * 2 ^ (- l)); lia.
Qed.

Lemma digits2_pos_bound (m : positive) : Zpos m < 2 ^ Zpos (digits2_pos m).
Proof.
  induction m as [m IH | m IH |]; cbn [digits2_pos].
  - rewrite Pos2Z.inj_succ, Z.pow_succ_r by lia. lia.
  - rewrite Pos2Z.inj_succ, Z.pow_succ_r by lia. lia.
  - reflexivity.
Qed.

(** A valid binary64 number has at most 53 bits of mantissa and an
    exponent of at most 971. *)
Lemma valid_finite_bounds (s : bool) (m : positive) (e : Z) :
  valid_binary (S754_finite s m e) = true -> Zpos m <= 2 ^ 53 - 1 /\ e <= 971.
Proof.
  intros H.
  unfold SpecFloat.valid_binary, bounded, canonical_mantissa, fexp, SpecFloat.emin in H.
  apply andb_true_iff in H. destruct H as [Hc He].
  apply Z.eqb_eq in Hc. apply Z.leb_le in He.
  unfold prec, emax in *.
  assert (Hd : Zpos (digits2_pos m) <= 53) by lia.
  pose proof (digits2_pos_bound m) as Hm.
  assert (2 ^ Zpos (digits2_pos m) <= 2 ^ 53) by (apply Z.pow_le_mono_r; lia).
  split; lia.
Qed.

(** No overflow below the largest binary64 number. *)
Lemma binary64_of_ratio_finite (s s' : bool) (p q : Z) :
  0 <= p -> 0 < q -> p <= (2 ^ 53 - 1) * (q * 2 ^ 971) ->
  binary64_of_ratio s p q <> S754_infinity s'.
Proof.
  intros Hp Hq Hmax. unfold binary64_of_ratio.
  destruct (p =? 0) eqn:Hp0; [discriminate |].
  apply Z.eqb_neq in Hp0.
  set (fl := floor_log2_ratio p q).
  set (e := Z.max (fl - 52) (-1074)).
  set (m := if 0 <=? e then rne_div p (q * 2 ^ e) else rne_div (p * 2 ^ (- e)) q).
  assert (He : e <= 971).
  { destruct (Z.le_gt_cases fl 1023) as [Hfl | Hfl]; [lia |].
    exfalso.
    pose proof (floor_log2_ratio_lower p q ltac:(lia) Hq ltac:(fold fl; lia)) as Hlow.
    fold fl in Hlow.
    assert (H1 : 2 ^ 1024 <= 2 ^ fl) by (apply Z.pow_le_mono_r; lia).
    assert (H2 : 2 ^ 1024 = 2 ^ 53 * 2 ^ 971) by (rewrite <- Z.pow_add_r by lia; reflexivity).
    assert (0 < 2 ^ 971) by (apply Z.pow_pos_nonneg; lia).
    assert (0 < 2 ^ 53) by (apply Z.pow_pos_nonneg; lia).
    nia. }
  assert (Hm : e = 971 -> m <= 2 ^ 53 - 1).
  { intros He971. unfold m. rewrite He971.
    change (0 <=? 971) with true. cbv iota.
    apply rne_div_le_bound; [| exact Hmax].
    apply Z.mul_pos_pos; [exact Hq | apply Z.pow_pos_nonneg; lia]. }
  destruct (m =? 2 ^ 53) eqn:Hm53.
  - apply Z.eqb_eq in Hm53.
    assert (e + 1 <= 971) by (destruct (Z.eq_dec e 971) as [E | E]; [specialize (Hm E) |]; lia).
    change (2 ^ 52) with (Zpos (2 ^ 52)%positive).
    cbv iota beta.
    destruct (e + 1 <=? 971) eqn:Hle; [discriminate | apply Z.leb_gt in Hle; lia].
  - destruct m; try discriminate.
    destruct (e <=? 971) eqn:Hle; [discriminate | apply Z.leb_gt in Hle; lia].
Qed.

(** [double_round] with [0 <= ndigits] never overflows on a binary64
    number. *)
Lemma double_round_returns (s : bool) (m : positive) (e ndigits : Z) :
  Zpos m <= 2 ^ 53 - 1 -> e <= 971 -> 0 <= ndigits ->
  exists r, double_round s m e ndigits = Ok r.
Proof.
  intros Hm He Hn. unfold double_round.
  rewrite (Z.max_r (- ndigits) 0), (Z.max_l ndigits 0) by lia.
  rewrite Z.pow_0_r, !Z.mul_1_r.
  set (q := 10 ^ ndigits).
  set (k := rne_div (Zpos m * 2 ^ Z.max e 0 * q) (2 ^ Z.max (- e) 0)).
  assert (Hq : 0 < q) by (apply Z.pow_pos_nonneg; lia).
  assert (Hpow : 0 < 2 ^ Z.max e 0 <= 2 ^ 971).
  { split; [apply Z.pow_pos_nonneg; lia | apply Z.pow_le_mono_r; lia]. }
  assert (Hden : 0 < 2 ^ Z.max (- e) 0) by (apply Z.pow_pos_nonneg; lia).
  assert (Hk : 0 <= k <= Zpos m * 2 ^ Z.max e 0 * q).
  { split.
    - unfold k, rne_div.
      assert (0 <= (Zpos m * 2 ^ Z.max e 0 * q) / 2 ^ Z.max (- e) 0)
        by (apply Z.div_pos; [nia | lia]).
      destruct (_ ?= _); try destruct (Z.even _); lia.
    - apply rne_div_le_self; [nia | lia]. }
  assert (Hbound : k <= (2 ^ 53 - 1) * (q * 2 ^ 971)).
  { assert (0 < 2 ^ 971) by lia.
    set (M := 2 ^ 53 - 1) in *. set (P := 2 ^ Z.max e 0) in *. set (T := 2 ^ 971) in *.
    assert (Zpos m * P <= M * T) by (apply Z.mul_le_mono_nonneg; lia).
    nia. }
  destruct (binary64_of_ratio s k q) eqn:Hr; eauto.
  exfalso. exact (binary64_of_ratio_finite s _ k q (proj1 Hk) Hq Hbound Hr).
Qed.

(** [round(x, ndigits)] of a float returns a float when [0 <= ndigits]. *)
Lemma float_round_returns (x : float) (ndigits : Z) :
  0 <= ndigits -> exists r, float_round x ndigits = Ok r.
Proof.
  intros Hn. unfold float_round.
  pose proof (Prim2SF_valid x) as Hv.
  destruct (Prim2SF x) as [| | | s m e]; eauto.
  destruct (ndigits >? NDIGITS_MAX); eauto.
  destruct (ndigits <? NDIGITS_MIN); eauto.
  apply valid_finite_bounds in Hv. destruct Hv.
  apply double_round_returns; assumption.
Qed.

Lemma round_float_returns (x : float) (ndigits : Z) :
  0 <= ndigits -> exists r, round (VFloat x) ndigits = Ok (VFloat r).
Proof.
  intros Hn. destruct (float_round_returns x ndigits Hn) as [r Hr].
  exists r. unfold round. rewrite Hr. reflexivity.
Qed.




(** ** The rounding to binary64, checked against the IEEE division *)

(** On operands that binary64 holds exactly, the nearest number to [p / q]
    is the quotient that the IEEE division computes. *)
Example binary64_of_ratio_is_the_ieee_quotient :
  forallb
    (fun p =>
       forallb
         (fun q =>
            Leibniz.eqb
              (SF2Prim (binary64_of_ratio false (Z.of_nat p) (Z.of_nat q)))
              (SF2Prim (binary_normalize prec emax (Z.of_nat p) 0 false)
               / SF2Prim (binary_normalize prec emax (Z.of_nat q) 0 false)))
         (seq 1 40))
    (seq 0 40) = true.
Proof. vm_compute. reflexivity. Qed.

(** The subnormal range and the overflow threshold. *)
Example binary64_of_ratio_at_the_ends :
  binary64_of_ratio false 1 (2 ^ 1074) = S754_finite false 1 (-1074) /\
  binary64_of_ratio false 1 (2 ^ 1075) = S754_zero false /\
  binary64_of_ratio true 3 (2 ^ 1075) = S754_finite true 2 (-1074) /\
  binary64_of_ratio false (2 ^ 1024 - 2 ^ 970 - 1) 1
    = S754_finite false (2 ^ 53 - 1) 971 /\
  binary64_of_ratio false (2 ^ 1024 - 2 ^ 970) 1 = S754_infinity false.
Proof. vm_compute. repeat split. Qed.

(** The rounding of Python, on the examples of its documentation and of
    the specification: ties go to the even digit, and a literal is
    rounded as the binary number it denotes. *)
#[warnings="-inexact-float"]
Example round_examples :
  float_round 2.5 0 = Ok 2%float /\
  float_round 0.125 2 = Ok 0.12%float /\
  float_round 2.675 2 = Ok 2.67%float /\
  float_round 1.005 2 = Ok 1%float /\
  float_round (-0.5) 0 = Ok (-0)%float /\
  int_round 25 (-1) = 20 /\
  int_round 35 (-1) = 40.
Proof. vm_compute. repeat split. Qed.

(** ** From the string to the tree *)

Section Parsing.

Context {host : Host}.

Lemma calculate_body_of_tree (g : Globals) (s : string) (tree : expr) :
  reference_parse s = Some (Tree tree) ->
  calculate_body g s = bind (eval_expr tree) (fun r => round r (MAX_PRECISION g)).
Proof.
  intros H. unfold calculate_body.
  pose proof (ast_parse_reference s _ H) as Hp. simpl in Hp.
  rewrite Hp. reflexivity.
Qed.

Lemma calculate_body_of_syntax_error (g : Globals) (s : string) :
  reference_parse s = Some Syntax_error ->
  exists msg, calculate_body g s = Raise (mk_exn SyntaxError msg).
Proof.
  intros H. unfold calculate_body.
  destruct (ast_parse_reference s _ H) as [msg Hp].
  exists msg. rewrite Hp. reflexivity.
Qed.

Lemma ast_parse_of_tree (s : string) (tree : expr) :
  reference_parse s = Some (Tree tree) -> ast_parse s = Ok tree.
Proof. intros H. exact (ast_parse_reference s _ H). Qed.

Lemma int_round_digits (n ndigits : Z) : 0 <= ndigits -> int_round n ndigits = n.
Proof.
  intros H. unfold int_round.
  destruct (0 <=? ndigits) eqn:E; [reflexivity | apply Z.leb_gt in E; lia].
Qed.

End Parsing.

(** Runs the reference parser on the expression of the goal and replaces
    the body of [calculate] by the walk of the tree it answers. *)
Ltac parse_expression g tree :=
  rewrite (calculate_body_of_tree g _ tree) by (vm_compute; reflexivity).

(** ** The walk of [eval_expr] *)

Section Walk.

Context {host : Host}.

Lemma key_error_unsupported_binary (op : operator) :
  unsupported_operation (key_error (operator_name op)) = true.
Proof. destruct op; reflexivity. Qed.

Lemma key_error_unsupported_unary (op : unaryop) :
  unsupported_operation (key_error (unaryop_name op)) = true.
Proof. destruct op; reflexivity. Qed.

Lemma unsupported_node_unsupported (node : expr) :
  unsupported_operation (unsupported node) = true.
Proof. destruct node as [| | | | | | k]; try reflexivity. destruct k; reflexivity. Qed.

Lemma operators_binary_allowed (op : operator) :
  allowed_binary op = false -> operators_binary op = Raise (key_error (operator_name op)).
Proof. destruct op; simpl; intros H; try discriminate; reflexivity. Qed.

Lemma operators_unary_allowed (op : unaryop) :
  allowed_unary op = false -> operators_unary op = Raise (key_error (unaryop_name op)).
Proof. destruct op; simpl; intros H; try discriminate; reflexivity. Qed.

(** A tree with a node outside the allow-list is never reduced to a
    value. *)
Lemma eval_expr_value_permitted (tree : expr) (v : value) :
  eval_expr tree = Ok v -> permitted tree = true.
Proof.
  revert v. induction tree as [c | l IHl op r IHr | op x IHx | id | f args | x IHx a | k];
    intros v H; simpl in *; try discriminate; try reflexivity.
  - destruct (eval_expr l) as [vl | e] eqn:El; simpl in H; [| discriminate].
    destruct (eval_expr r) as [vr | e] eqn:Er; simpl in H; [| discriminate].
    rewrite (IHl vl eq_refl), (IHr vr eq_refl).
    destruct (allowed_binary op) eqn:Ea; [reflexivity |].
    rewrite (operators_binary_allowed op Ea) in H. discriminate.
  - destruct (eval_expr x) as [vx | e] eqn:Ex; simpl in H; [| discriminate].
    rewrite (IHx vx eq_refl).
    destruct (allowed_unary op) eqn:Ea; [reflexivity |].
    rewrite (operators_unary_allowed op Ea) in H. discriminate.
Qed.

(** What the walk raises on a tree with a node outside the allow-list:
    the rejection of such a node, or the failure of the reduction of a
    permitted subtree that the walk met first. *)
Lemma eval_expr_not_permitted (tree : expr) :
  permitted tree = false ->
  exists e, eval_expr tree = Raise e /\
    (unsupported_operation e = true \/
     exists t, subtree t tree /\ permitted t = true /\ eval_expr t = Raise e).
Proof.
  induction tree as [c | l IHl op r IHr | op x IHx | id | f args | x IHx a | k];
    intros Hp; simpl in Hp; try discriminate.
  - cbn [eval_expr].
    destruct (eval_expr l) as [vl | e] eqn:El; cbn [bind].
    + pose proof (eval_expr_value_permitted l vl El) as Hl.
      destruct (eval_expr r) as [vr | e] eqn:Er; cbn [bind].
      * pose proof (eval_expr_value_permitted r vr Er) as Hr.
        rewrite Hl, Hr, andb_true_r in Hp. simpl in Hp.
        rewrite (operators_binary_allowed op Hp). cbn [bind].
        eexists; split; [reflexivity | left; apply key_error_unsupported_binary].
      * exists e; split; [reflexivity |].
        destruct (permitted r) eqn:Hr.
        -- right. exists r. repeat split; auto using subtree.
        -- destruct (IHr eq_refl) as [e' [He' [Hu | [t [Hs [Ht Hte]]]]]];
             try rewrite Er in He'; injection He' as <-.
           ++ left; exact Hu.
           ++ right. exists t. repeat split; auto using subtree.
    + exists e; split; [reflexivity |].
      destruct (permitted l) eqn:Hl.
      * right. exists l. repeat split; auto using subtree.
      * destruct (IHl eq_refl) as [e' [He' [Hu | [t [Hs [Ht Hte]]]]]];
          try rewrite El in He'; injection He' as <-.
        -- left; exact Hu.
        -- right. exists t. repeat split; auto using subtree.
  - cbn [eval_expr].
    destruct (eval_expr x) as [vx | e] eqn:Ex; cbn [bind].
    + pose proof (eval_expr_value_permitted x vx Ex) as Hx.
      rewrite Hx, andb_true_r in Hp.
      rewrite (operators_unary_allowed op Hp). cbn [bind].
      eexists; split; [reflexivity | left; apply key_error_unsupported_unary].
    + exists e; split; [reflexivity |].
      destruct (permitted x) eqn:Hx.
      * right. exists x. repeat split; auto using subtree.
      * destruct (IHx eq_refl) as [e' [He' [Hu | [t [Hs [Ht Hte]]]]]];
          try rewrite Ex in He'; injection He' as <-.
        -- left; exact Hu.
        -- right. exists t. repeat split; auto using subtree.
  - eexists; split; [reflexivity | left; reflexivity].
  - eexists; split; [reflexivity | left; reflexivity].
  - eexists; split; [reflexivity | left; reflexivity].
  - eexists; split; [reflexivity | left; apply (unsupported_node_unsupported (Other k))].
Qed.

(** The string returned for a rejected construct has the shape that
    [unsupported_outcome] reads. *)
Lemma try_except_unsupported (e : exn) :
  unsupported_operation e = true -> unsupported_outcome (try_except (Raise e)) = true.
Proof.
  destruct e as [c msg]. unfold unsupported_operation, try_except. simpl.
  destruct c; try discriminate; simpl; intros H.
  - rewrite H. reflexivity.
  - rewrite H. apply orb_true_r.
Qed.

End Walk.

Lemma subtree_permitted (t tree : expr) :
  subtree t tree -> permitted tree = true -> permitted t = true.
Proof.
  induction 1 as [| l op r _ IH | l op r _ IH | op x _ IH]; simpl; intros Hp.
  - exact Hp.
  - apply IH. destruct (permitted l); [reflexivity | discriminate].
  - apply IH. destruct (permitted r); [reflexivity |].
    rewrite andb_false_r in Hp. discriminate.
  - apply IH. destruct (permitted x); [reflexivity |].
    rewrite andb_false_r in Hp. discriminate.
Qed.

Lemma try_except_value (e : exn) (v : value) :
  try_except (Raise e) = Ok v -> is_error v = true /\ is_numeric v = false.
Proof.
  unfold try_except. destruct (caught (exn_type e)); [| discriminate].
  intros H. injection H as <-. split; reflexivity.
Qed.

(** ** The claims *)

(** C1 (the code does not do what the claim says). [calculate] lets an
    exception through to its caller: its [except] clause names
    [SyntaxError], [ValueError], [KeyError] and [ZeroDivisionError], and
    the reduction and the rounding also raise [OverflowError] (a quotient
    of integers too large for a float) and [TypeError] (the rounding of a
    constant that is not a number). *)
Theorem calculate_lets_exceptions_through : forall (host : Host) (g : Globals),
  calculate g "10 ** 400 / 3"
    = Raise (mk_exn OverflowError "integer division result too large for a float") /\
  calculate g "None"
    = Raise (mk_exn TypeError "type NoneType doesn't define __round__ method").
Proof.
  intros host g. unfold calculate. split.
  - parse_expression g
      (BinOp (BinOp (Constant (VInt 10)) Pow (Constant (VInt 400))) Div (Constant (VInt 3))).
    vm_compute. reflexivity.
  - parse_expression g
      (Constant VNone).
    reflexivity.
Qed.

(** C2, as the claim states it, fails: [calculate("2 ^ 3 ^ 2")] returns
    no number at all. *)
Lemma caret_returns_no_number :
  ~ (exists v, @calculate reference_host default_globals "2 ^ 3 ^ 2" = Ok v
               /\ is_numeric v = true).
Proof.
  intros [v [H Hv]]. vm_compute in H. injection H as <-. discriminate.
Qed.

(** C2, amended. [ast.parse] reads [^] as the bitwise exclusive or, which
    is not a key of [operators]: [calculate("2 ^ 3 ^ 2")] returns the
    error string of that [KeyError]. The power operator is [**], it
    associates to the right, and [calculate("2 ** 3 ** 2")] returns 512
    for a precision that is not negative. *)
Theorem caret_is_rejected_and_power_associates_right :
  forall (host : Host) (g : Globals),
    calculate g "2 ^ 3 ^ 2" = Ok (VStr "Error: Invalid expression - <class 'ast.BitXor'>") /\
    ast_parse "2 ** 3 ** 2"
      = Ok (BinOp (Constant (VInt 2)) Pow
              (BinOp (Constant (VInt 3)) Pow (Constant (VInt 2)))) /\
    (0 <= MAX_PRECISION g -> calculate g "2 ** 3 ** 2" = Ok (VInt 512)).
Proof.
  intros host g. unfold calculate. repeat split.
  - parse_expression g
      (BinOp (BinOp (Constant (VInt 2)) BitXor (Constant (VInt 3))) BitXor (Constant (VInt 2))).
    reflexivity.
  - apply ast_parse_of_tree. vm_compute. reflexivity.
  - intros Hp.
    parse_expression g
      (BinOp (Constant (VInt 2)) Pow (BinOp (Constant (VInt 3)) Pow (Constant (VInt 2)))).
    cbn. rewrite int_round_digits by exact Hp. reflexivity.
Qed.

Lemma caret_is_rejected_and_power_associates_right_witness :
  0 <= MAX_PRECISION default_globals /\
  @calculate reference_host default_globals "2 ** 3 ** 2" = Ok (VInt 512).
Proof.
  assert (H : 0 <= MAX_PRECISION default_globals) by (simpl; lia).
  split; [exact H |].
  exact (proj2 (proj2 (caret_is_rejected_and_power_associates_right
                         reference_host default_globals)) H).
Defined.

(** C3, as the claim states it, fails: [import os] is a statement, so
    that [ast.parse(_, mode='eval')] raises a [SyntaxError], and the
    outcome is that of a syntax error, not of an unsupported operation. *)
Lemma import_statement_is_a_syntax_error :
  (exists msg, @calculate_body reference_host default_globals "import os"
               = Raise (mk_exn SyntaxError msg)) /\
  unsupported_outcome (@calculate reference_host default_globals "import os") = false.
Proof.
  split; [eexists |]; vm_compute; reflexivity.
Qed.

(** C3, amended. [calculate("import os")] returns the error string of a
    [SyntaxError]. [calculate("__import__('os')")] and every expression
    that is a call or an attribute access return the error string of the
    unsupported operation, whatever the callee, the arguments or the
    object are: [eval_expr] does not look at them. An expression with a
    call or an attribute access among the operands that the walk reaches
    never returns a number. *)
Theorem calls_and_attributes_are_never_executed :
  forall (host : Host) (g : Globals),
    (exists msg,
       calculate_body g "import os" = Raise (mk_exn SyntaxError msg) /\
       calculate g "import os" = Ok (VStr ("Error: Invalid expression - " ++ msg))) /\
    calculate g "__import__('os')"
      = Ok (VStr "Error: Invalid expression - Unsupported operation: <class 'ast.Call'>") /\
    (forall expression func args,
       ast_parse expression = Ok (Call func args) ->
       calculate g expression
         = Ok (VStr "Error: Invalid expression - Unsupported operation: <class 'ast.Call'>")) /\
    (forall expression object attr,
       ast_parse expression = Ok (Attribute object attr) ->
       calculate g expression
         = Ok (VStr "Error: Invalid expression - Unsupported operation: <class 'ast.Attribute'>")) /\
    (forall expression tree t,
       ast_parse expression = Ok tree ->
       subtree t tree ->
       (exists func args, t = Call func args) \/ (exists object attr, t = Attribute object attr) ->
       forall v, calculate g expression = Ok v -> is_error v = true /\ is_numeric v = false).
Proof.
  intros host g. split; [| split; [| split; [| split]]].
  - destruct (calculate_body_of_syntax_error g "import os") as [msg Hm];
      [vm_compute; reflexivity |].
    exists msg. unfold calculate. rewrite Hm. split; reflexivity.
  - unfold calculate.
    parse_expression g
      (Call (Name "__import__") [Constant (VStr "os")]).
    reflexivity.
  - intros expression func args Hp. unfold calculate, calculate_body. rewrite Hp. reflexivity.
  - intros expression object attr Hp. unfold calculate, calculate_body. rewrite Hp. reflexivity.
  - intros expression tree t Hparse Hsub Hkind v Hv.
    assert (Hnp : permitted tree = false).
    { destruct (permitted tree) eqn:Hp; [| reflexivity].
      pose proof (subtree_permitted t tree Hsub Hp) as Ht.
      destruct Hkind as [[f [a ->]] | [o [a ->]]]; discriminate. }
    destruct (eval_expr_not_permitted tree Hnp) as [e [He _]].
    unfold calculate, calculate_body in Hv.
    rewrite Hparse in Hv. cbn [bind] in Hv. rewrite He in Hv. cbn [bind] in Hv.
    exact (try_except_value e v Hv).
Qed.

Lemma calls_and_attributes_are_never_executed_witness :
  @calculate reference_host default_globals "os.system('ls')"
    = Ok (VStr "Error: Invalid expression - Unsupported operation: <class 'ast.Call'>") /\
  @calculate reference_host default_globals "os.environ"
    = Ok (VStr "Error: Invalid expression - Unsupported operation: <class 'ast.Attribute'>") /\
  (forall v, @calculate reference_host default_globals "2 * os.getpid()" = Ok v ->
     is_error v = true /\ is_numeric v = false).
Proof.
  pose proof (calls_and_attributes_are_never_executed reference_host default_globals)
    as [_ [_ [Hcall [Hattr Hin]]]].
  split; [| split].
  - exact (Hcall "os.system('ls')" (Attribute (Name "os") "system") [Constant (VStr "ls")]
             eq_refl).
  - exact (Hattr "os.environ" (Name "os") "environ" eq_refl).
  - refine (Hin "2 * os.getpid()"
              (BinOp (Constant (VInt 2)) Mult (Call (Attribute (Name "os") "getpid") []))
              (Call (Attribute (Name "os") "getpid") []) eq_refl _ _).
    + apply subtree_right. apply subtree_refl.
    + left. eexists. eexists. reflexivity.
Defined.

(** C4, as the claim states it, fails: the tree of [1/0 + f(x)] holds a
    call, and the outcome is the error of the division by zero, which the
    walk meets first. *)
Lemma division_by_zero_comes_before_the_rejection :
  exists tree,
    @ast_parse reference_host "1/0 + f(x)" = Ok tree /\
    permitted tree = false /\
    @calculate reference_host default_globals "1/0 + f(x)"
      = Ok (VStr "Error: Invalid expression - division by zero") /\
    unsupported_outcome (@calculate reference_host default_globals "1/0 + f(x)") = false.
Proof.
  eexists. split; [vm_compute; reflexivity |].
  repeat split; vm_compute; reflexivity.
Qed.

(** C4, amended. There is no validation pass ahead of the reduction:
    [eval_expr] rejects a node when the walk reaches it. For a tree with a
    node outside the allow-list (a node that is not a constant, a binary
    operation with an operator of the table, or a negation), the walk
    always raises and [calculate] never returns a number. What it raises
    is the rejection of such a node (and the outcome is then the error
    string of the unsupported operation), unless the reduction of a
    permitted subtree fails: then that failure is what [calculate]
    handles. *)
Theorem rejection_or_first_failure :
  forall (host : Host) (g : Globals) (expression : string) (tree : expr),
    ast_parse expression = Ok tree ->
    permitted tree = false ->
    exists e,
      eval_expr tree = Raise e /\
      calculate g expression = try_except (Raise e) /\
      (forall v, calculate g expression = Ok v -> is_error v = true /\ is_numeric v = false) /\
      (unsupported_operation e = true /\ unsupported_outcome (calculate g expression) = true
       \/ exists t, subtree t tree /\ permitted t = true /\ eval_expr t = Raise e).
Proof.
  intros host g expression tree Hparse Hnp.
  destruct (eval_expr_not_permitted tree Hnp) as [e [He Hwhy]].
  assert (Hc : calculate g expression = try_except (Raise e)).
  { unfold calculate, calculate_body. rewrite Hparse. cbn [bind]. rewrite He. reflexivity. }
  exists e. split; [exact He |]. split; [exact Hc |]. split.
  - intros v Hv. rewrite Hc in Hv. exact (try_except_value e v Hv).
  - destruct Hwhy as [Hu | Ht]; [left | right; exact Ht].
    split; [exact Hu |]. rewrite Hc. apply try_except_unsupported. exact Hu.
Qed.

Lemma rejection_or_first_failure_witness :
  exists e,
    @eval_expr reference_host
      (BinOp (Constant (VInt 2)) Add (BinOp (Name "x") Mod (Constant (VInt 0)))) = Raise e /\
    @calculate reference_host default_globals "2 + x % 0" = try_except (Raise e) /\
    (forall v, @calculate reference_host default_globals "2 + x % 0" = Ok v ->
       is_error v = true /\ is_numeric v = false) /\
    (unsupported_operation e = true /\
     unsupported_outcome (@calculate reference_host default_globals "2 + x % 0") = true
     \/ exists t,
         subtree t (BinOp (Constant (VInt 2)) Add (BinOp (Name "x") Mod (Constant (VInt 0))))
         /\ permitted t = true /\ @eval_expr reference_host t = Raise e).
Proof.
  exact (rejection_or_first_failure reference_host default_globals "2 + x % 0"
           (BinOp (Constant (VInt 2)) Add (BinOp (Name "x") Mod (Constant (VInt 0))))
           eq_refl eq_refl).
Defined.

(** C5. Each tool returns the rounding, to [MAX_PRECISION] digits, of the
    one operation it applies: [add], [subtract], [multiply] and [power]
    for all operands, [divide] for a divisor that is not zero. *)
Theorem tools_round_their_operation :
  forall (host : Host) (g : Globals) (a b : float),
    add g a b = round (VFloat (a + b)) (MAX_PRECISION g) /\
    subtract g a b = round (VFloat (a - b)) (MAX_PRECISION g) /\
    multiply g a b = round (VFloat (a * b)) (MAX_PRECISION g) /\
    ((b =? 0)%float = false ->
     divide g a b = round (VFloat (a / b)) (MAX_PRECISION g)) /\
    power g a b = bind (float_pow a b) (fun r => round r (MAX_PRECISION g)).
Proof.
  intros host g a b. repeat split.
  intros Hb. unfold divide, float_truediv. rewrite Hb. reflexivity.
Qed.

Lemma tools_round_their_operation_witness :
  (3 =? 0)%float = false /\
  divide default_globals 1 3 = round (VFloat (1 / 3)) (MAX_PRECISION default_globals) /\
  divide default_globals 1 3 = Ok (VFloat 0x1.55555554c2bb5p-2).
Proof.
  assert (H : (3 =? 0)%float = false) by reflexivity.
  pose proof (proj1 (proj2 (proj2 (proj2
                (tools_round_their_operation reference_host default_globals 1 3)))) H) as Hd.
  split; [exact H |]. split; [exact Hd |].
  rewrite Hd. vm_compute. reflexivity.
Defined.

(** C6. [divide(a, 0)] is the error string for every numerator [a], with
    a zero of either sign: never a number. *)
Theorem divide_by_zero_is_an_error :
  forall (g : Globals) (a : float),
    divide g a 0 = Ok (VStr "Error: Division by zero") /\
    divide g a (-0) = Ok (VStr "Error: Division by zero") /\
    is_numeric (VStr "Error: Division by zero") = false.
Proof.
  intros g a. repeat split.
Qed.









(** ** Beside the claims *)

(** The other outcomes that the specification lists for the parser: an
    empty expression and an expression that stops after an operator are
    syntax errors. *)
Example empty_and_truncated_expressions :
  forall (host : Host) (g : Globals),
    (exists msg, calculate g "" = Ok (VStr ("Error: Invalid expression - " ++ msg))) /\
    (exists msg, calculate g "2 +" = Ok (VStr ("Error: Invalid expression - " ++ msg))).
Proof.
  intros host g. unfold calculate. split.
  - destruct (calculate_body_of_syntax_error g "") as [msg ->]; [vm_compute; reflexivity |].
    exists msg. reflexivity.
  - destruct (calculate_body_of_syntax_error g "2 +") as [msg ->]; [vm_compute; reflexivity |].
    exists msg. reflexivity.
Qed.

(** [int(os.getenv("MAX_PRECISION", "10"))] accepts a negative number,
    which is no number of digits: [round] then rounds to tens, hundreds
    and so on, and can overflow. This is why the theorems on results
    assume [0 <= MAX_PRECISION g]. *)
Remark negative_precision :
  @calculate reference_host {| MAX_PRECISION := -1; LOG_LEVEL := "info" |} "2 + 3 * 4"
    = Ok (VInt 10) /\
  sqrt {| MAX_PRECISION := -1; LOG_LEVEL := "info" |} 4 = Ok (VFloat 0) /\
  add {| MAX_PRECISION := -308; LOG_LEVEL := "info" |} 0x1.fffffffffffffp+1023 0
    = Raise (mk_exn OverflowError "rounded value too large to represent").
Proof. vm_compute. repeat split. Qed.

(** ** Further properties of the tools *)

Lemma round_returns_a_number (v w : value) (ndigits : Z) :
  round v ndigits = Ok w -> is_numeric w = true.
Proof.
  destruct v; simpl; try discriminate.
  - intros H; injection H as <-; reflexivity.
  - intros H; injection H as <-; reflexivity.
  - destruct (float_round x ndigits); simpl; [| discriminate].
    intros H; injection H as <-; reflexivity.
Qed.


(** X1. [divide] never raises when the precision is not negative: it
    returns its error string when [b == 0] and a float otherwise (a NaN
    or an infinity for operands that are, never an error string). *)
Theorem divide_returns_the_error_or_a_float :
  forall (g : Globals) (a b : float),
    0 <= MAX_PRECISION g ->
    ((b =? 0)%float = true /\ divide g a b = Ok (VStr "Error: Division by zero")) \/
    ((b =? 0)%float = false /\ exists r, divide g a b = Ok (VFloat r)).
Proof.
  intros g a b Hp. unfold divide, float_truediv.
  destruct (b =? 0)%float; [left; split; reflexivity | right; split; [reflexivity |]].
  cbn [bind]. apply round_float_returns. exact Hp.
Qed.

Lemma divide_returns_the_error_or_a_float_witness :
  0 <= MAX_PRECISION default_globals /\
  (exists r, divide default_globals 1 nan = Ok (VFloat r)) /\
  divide default_globals infinity (-0) = Ok (VStr "Error: Division by zero").
Proof.
  assert (H : 0 <= MAX_PRECISION default_globals) by (simpl; lia).
  split; [exact H |]. split.
  - destruct (divide_returns_the_error_or_a_float default_globals 1 nan H)
      as [[Hb _] | [_ Hr]]; [discriminate Hb | exact Hr].
  - destruct (divide_returns_the_error_or_a_float default_globals infinity (-0) H)
      as [[_ Hr] | [Hb _]]; [exact Hr | discriminate Hb].
Defined.

(** X2. [power] has no error branch: it never returns a string. What
    [base ** exponent] raises leaves [power] as an exception, and a
    complex power (a negative base with a fractional exponent) is a
    [TypeError] of the rounding. *)
Theorem power_returns_no_error_string :
  forall (host : Host) (g : Globals) (base exponent : float),
    (forall v, power g base exponent = Ok v -> is_numeric v = true) /\
    (forall e, float_pow base exponent = Raise e -> power g base exponent = Raise e) /\
    (forall re im,
       float_pow base exponent = Ok (VComplex re im) ->
       power g base exponent
         = Raise (mk_exn TypeError "type complex doesn't define __round__ method")).
Proof.
  intros host g base exponent. unfold power. split; [| split].
  - intros v. destruct (float_pow base exponent) as [r | e]; cbn [bind]; [| discriminate].
    apply round_returns_a_number.
  - intros e ->. reflexivity.
  - intros re im ->. reflexivity.
Qed.

Lemma power_returns_no_error_string_witness :
  let pow (x y : float) :=
    if (y =? 0)%float then Ok (VFloat 1)
    else if (x <? 0)%float then Ok (VComplex 0x1.8f5a0be038ed7p-53 0x1.6a09e667f3bcdp+1)
    else Raise (mk_exn OverflowError "(34, 'Numerical result out of range')") in
  is_numeric (VFloat 1) = true /\
  @power (host_with_pow pow) default_globals 10 400
    = Raise (mk_exn OverflowError "(34, 'Numerical result out of range')") /\
  @power (host_with_pow pow) default_globals (-8) 0.5
    = Raise (mk_exn TypeError "type complex doesn't define __round__ method").
Proof.
  intros pow.
  pose proof (power_returns_no_error_string (host_with_pow pow) default_globals) as H.
  split; [| split].
  - apply (proj1 (H 7 0)%float). vm_compute. reflexivity.
  - apply (proj1 (proj2 (H 10 400)%float)). reflexivity.
  - apply (proj2 (proj2 (H (-8) 0.5)%float) 0x1.8f5a0be038ed7p-53%float
             0x1.6a09e667f3bcdp+1%float).
    reflexivity.
Defined.

(** X3. The tools and the evaluator agree: an expression that parses to
    one operation on two [float] literals gets from [calculate] what the
    tool of that operation returns on them. [divide] differs on a zero
    divisor only by the text of its error. *)
Theorem evaluator_agrees_with_the_tools :
  forall (host : Host) (g : Globals) (expression : string) (a b : float),
    (ast_parse expression = Ok (BinOp (Constant (VFloat a)) Add (Constant (VFloat b))) ->
     calculate g expression = add g a b) /\
    (ast_parse expression = Ok (BinOp (Constant (VFloat a)) Sub (Constant (VFloat b))) ->
     calculate g expression = subtract g a b) /\
    (ast_parse expression = Ok (BinOp (Constant (VFloat a)) Mult (Constant (VFloat b))) ->
     calculate g expression = multiply g a b) /\
    (ast_parse expression = Ok (BinOp (Constant (VFloat a)) Div (Constant (VFloat b))) ->
     if (b =? 0)%float
     then calculate g expression
            = Ok (VStr "Error: Invalid expression - float division by zero")
          /\ divide g a b = Ok (VStr "Error: Division by zero")
     else calculate g expression = divide g a b) /\
    (ast_parse expression = Ok (BinOp (Constant (VFloat a)) Pow (Constant (VFloat b))) ->
     calculate g expression = try_except (power g a b)).
Proof.
  intros host g expression a b.
  assert (Hround : forall x, try_except (round (VFloat x) (MAX_PRECISION g))
                             = round (VFloat x) (MAX_PRECISION g)).
  { intros x. unfold round. destruct (float_round x (MAX_PRECISION g)) as [r | e] eqn:Hr;
      cbn [bind try_except]; [reflexivity |].
    unfold float_round in Hr. destruct (Prim2SF x); try discriminate.
    destruct (_ >? _); [discriminate |]. destruct (_ <? _); [discriminate |].
    unfold double_round in Hr. destruct (binary64_of_ratio _ _ _); try discriminate.
    injection Hr as <-. reflexivity. }
  unfold calculate, calculate_body.
  split; [| split; [| split; [| split]]]; intros ->; cbn [bind eval_expr operators_binary].
  - apply Hround.
  - apply Hround.
  - apply Hround.
  - unfold divide, Operator.truediv, Operator.real_binop. cbn.
    unfold float_truediv. destruct (b =? 0)%float; cbn.
    + split; reflexivity.
    + apply Hround.
  - reflexivity.
Qed.

Lemma evaluator_agrees_with_the_tools_witness :
  @calculate reference_host default_globals "0.5 + 0.25" = add default_globals 0.5 0.25 /\
  @calculate reference_host default_globals "1.5 - 4." = subtract default_globals 1.5 4 /\
  @calculate reference_host default_globals "1.5 * 3.0" = multiply default_globals 1.5 3 /\
  @calculate reference_host default_globals "1.0 / 8.0" = divide default_globals 1 8 /\
  @calculate reference_host default_globals "1.0 / 0.0"
    = Ok (VStr "Error: Invalid expression - float division by zero").
Proof.
  split; [| split; [| split; [| split]]].
  - exact (proj1 (evaluator_agrees_with_the_tools reference_host default_globals
                    "0.5 + 0.25" 0.5 0.25) eq_refl).
  - exact (proj1 (proj2 (evaluator_agrees_with_the_tools reference_host default_globals
                           "1.5 - 4." 1.5 4)) eq_refl).
  - exact (proj1 (proj2 (proj2 (evaluator_agrees_with_the_tools reference_host
                                  default_globals "1.5 * 3.0" 1.5 3))) eq_refl).
  - exact (proj1 (proj2 (proj2 (proj2 (evaluator_agrees_with_the_tools reference_host
                                         default_globals "1.0 / 8.0" 1 8)))) eq_refl).
  - exact (proj1 (proj1 (proj2 (proj2 (proj2 (evaluator_agrees_with_the_tools
                                                reference_host default_globals
                                                "1.0 / 0.0" 1 0)))) eq_refl)).
Defined.

Section Evaluator.

Context {host : Host}.


End Evaluator.



(** X5. What [calculate] gives back: a number ([int] or [float]), or a
    string that starts with [Error: Invalid expression - ]; and an
    exception that it lets through is never a [SyntaxError], a
    [ValueError], a [KeyError] or a [ZeroDivisionError]. *)
Theorem calculate_outcomes :
  forall (host : Host) (g : Globals) (expression : string),
    (forall v, calculate g expression = Ok v ->
       is_numeric v = true \/ exists msg, v = VStr ("Error: Invalid expression - " ++ msg)) /\
    (forall e, calculate g expression = Raise e -> caught (exn_type e) = false).
Proof.
  intros host g expression. unfold calculate, try_except.
  destruct (calculate_body g expression) as [w | ex] eqn:Hb.
  - split; [| discriminate].
    intros v H. injection H as <-. left.
    unfold calculate_body in Hb.
    destruct (ast_parse expression) as [tree | ex]; cbn [bind] in Hb; [| discriminate].
    destruct (eval_expr tree) as [r | ex]; cbn [bind] in Hb; [| discriminate].
    exact (round_returns_a_number r w _ Hb).
  - destruct (caught (exn_type ex)) eqn:Hc; split.
    + intros v H. injection H as <-. right. eexists. reflexivity.
    + discriminate.
    + discriminate.
    + intros e H. injection H as <-. exact Hc.
Qed.

Lemma calculate_outcomes_witness :
  (is_numeric (VFloat 3.5) = true \/
   exists msg, VFloat 3.5 = VStr ("Error: Invalid expression - " ++ msg)) /\
  (is_numeric (VStr "Error: Invalid expression - division by zero") = true \/
   exists msg, VStr "Error: Invalid expression - division by zero"
               = VStr ("Error: Invalid expression - " ++ msg)) /\
  caught OverflowError = false.
Proof.
  split; [| split].
  - exact (proj1 (calculate_outcomes reference_host default_globals "7 / 2")
             (VFloat 3.5) eq_refl).
  - exact (proj1 (calculate_outcomes reference_host default_globals "7 / 0")
             (VStr "Error: Invalid expression - division by zero") eq_refl).
  - exact (proj2 (calculate_outcomes reference_host default_globals "10 ** 400 / 3")
             (mk_exn OverflowError "integer division result too large for a float")
             eq_refl).
Defined.

(** X6. An operator that the table lacks is looked up after its operands
    are reduced: when they reduce to values, [calculate] returns the
    error string that names the class of the operator. So [%], [//],
    the bitwise operators and the unary [+] are errors, on any
    operands. *)
Theorem operator_outside_the_table :
  forall (host : Host) (g : Globals) (expression : string),
    (forall l op r vl vr,
       ast_parse expression = Ok (BinOp l op r) ->
       eval_expr l = Ok vl -> eval_expr r = Ok vr ->
       allowed_binary op = false ->
       calculate g expression
         = Ok (VStr ("Error: Invalid expression - <class 'ast." ++ operator_name op ++ "'>"))) /\
    (forall op x vx,
       ast_parse expression = Ok (UnaryOp op x) ->
       eval_expr x = Ok vx ->
       allowed_unary op = false ->
       calculate g expression
         = Ok (VStr ("Error: Invalid expression - <class 'ast." ++ unaryop_name op ++ "'>"))).
Proof.
  intros host g expression. unfold calculate, calculate_body. split.
  - intros l op r vl vr -> Hl Hr Hop. cbn [bind eval_expr]. rewrite Hl, Hr. cbn [bind].
    rewrite (operators_binary_allowed op Hop). reflexivity.
  - intros op x vx -> Hx Hop. cbn [bind eval_expr]. rewrite Hx. cbn [bind].
    rewrite (operators_unary_allowed op Hop). reflexivity.
Qed.

Lemma operator_outside_the_table_witness :
  @calculate reference_host default_globals "7 % 2"
    = Ok (VStr "Error: Invalid expression - <class 'ast.Mod'>") /\
  @calculate reference_host default_globals "(1 + 6) // 2"
    = Ok (VStr "Error: Invalid expression - <class 'ast.FloorDiv'>") /\
  @calculate reference_host default_globals "+5"
    = Ok (VStr "Error: Invalid expression - <class 'ast.UAdd'>").
Proof.
  split; [| split].
  - exact (proj1 (operator_outside_the_table reference_host default_globals "7 % 2")
             (Constant (VInt 7)) Mod (Constant (VInt 2)) (VInt 7) (VInt 2)
             eq_refl eq_refl eq_refl eq_refl).
  - exact (proj1 (operator_outside_the_table reference_host default_globals "(1 + 6) // 2")
             (BinOp (Constant (VInt 1)) Add (Constant (VInt 6))) FloorDiv
             (Constant (VInt 2)) (VInt 7) (VInt 2) eq_refl eq_refl eq_refl eq_refl).
  - exact (proj2 (operator_outside_the_table reference_host default_globals "+5")
             UAdd (Constant (VInt 5)) (VInt 5) eq_refl eq_refl eq_refl).
Defined.

(** X7. A division by zero inside an expression is reported, not
    raised: when the operands of [/] reduce to [int]s and the divisor to
    0, [calculate] returns the error string of [division by zero]; when
    they reduce to [float]s and the divisor to a zero of either sign, that
    of [float division by zero]. *)
Theorem division_by_zero_is_reported :
  forall (host : Host) (g : Globals) (expression : string) (l r : expr),
    ast_parse expression = Ok (BinOp l Div r) ->
    (forall a, eval_expr l = Ok (VInt a) -> eval_expr r = Ok (VInt 0) ->
       calculate g expression = Ok (VStr "Error: Invalid expression - division by zero")) /\
    (forall x y, eval_expr l = Ok (VFloat x) -> eval_expr r = Ok (VFloat y) ->
       (y =? 0)%float = true ->
       calculate g expression
         = Ok (VStr "Error: Invalid expression - float division by zero")).
Proof.
  intros host g expression l r Hparse.
  unfold calculate, calculate_body. rewrite Hparse. cbn [bind eval_expr]. split.
  - intros a -> ->. reflexivity.
  - intros x y -> -> Hy. cbn [bind operators_binary].
    unfold Operator.truediv, Operator.real_binop. cbn.
    unfold float_truediv. rewrite Hy. reflexivity.
Qed.

Lemma division_by_zero_is_reported_witness :
  @calculate reference_host default_globals "(1 + 2) / (3 - 3)"
    = Ok (VStr "Error: Invalid expression - division by zero") /\
  @calculate reference_host default_globals "1.5 / (2.0 * -0.0)"
    = Ok (VStr "Error: Invalid expression - float division by zero").
Proof.
  split.
  - exact (proj1 (division_by_zero_is_reported reference_host default_globals
                    "(1 + 2) / (3 - 3)"
                    (BinOp (Constant (VInt 1)) Add (Constant (VInt 2)))
                    (BinOp (Constant (VInt 3)) Sub (Constant (VInt 3))) eq_refl)
             3 eq_refl eq_refl).
  - exact (proj2 (division_by_zero_is_reported reference_host default_globals
                    "1.5 / (2.0 * -0.0)"
                    (Constant (VFloat 1.5))
                    (BinOp (Constant (VFloat 2)) Mult (UnaryOp USub (Constant (VFloat 0))))
                    eq_refl)
             1.5%float (-0)%float eq_refl eq_refl eq_refl).
Defined.

(** X8. [calculate_prompt_template] never fails on a name it does not
    know: it returns the default prompt exactly for the names other than
    [add], [subtract], [multiply] and [divide], the names of the tools
    [power], [sqrt] and [calculate] included. *)
Theorem prompt_template_default :
  forall operation : string,
    calculate_prompt_template operation = "Please perform a calculation"
    <-> ~ In operation ["add"; "subtract"; "multiply"; "divide"].
Proof.
  intros operation. unfold calculate_prompt_template, templates. cbn [dict_get].
  destruct ("add" =? operation)%string eqn:E1;
    [apply String.eqb_eq in E1; subst; split; [discriminate | intros H; exfalso; apply H; simpl; auto] |].
  destruct ("subtract" =? operation)%string eqn:E2;
    [apply String.eqb_eq in E2; subst; split; [discriminate | intros H; exfalso; apply H; simpl; auto] |].
  destruct ("multiply" =? operation)%string eqn:E3;
    [apply String.eqb_eq in E3; subst; split; [discriminate | intros H; exfalso; apply H; simpl; auto] |].
  destruct ("divide" =? operation)%string eqn:E4;
    [apply String.eqb_eq in E4; subst; split; [discriminate | intros H; exfalso; apply H; simpl; auto] |].
  apply String.eqb_neq in E1, E2, E3, E4.
  split; [| reflexivity].
  intros _ [H | [H | [H | [H | []]]]]; congruence.
Qed.

(** *** The four operations on reals *)




Section Reals.

Context {host : Host}.



End Reals.




(** *** The IEEE operations behind the tools *)

Lemma SFadd_comm (x y : spec_float) : SF64add x y = SF64add y x.
Proof.
  unfold SF64add, SFadd.
  destruct x as [sx | sx | | sx mx ex], y as [sy | sy | | sy my ey];
    try reflexivity; try (destruct sx, sy; reflexivity).
  rewrite (Z.min_comm ey ex), Z.add_comm. reflexivity.
Qed.

Lemma SFmul_comm (x y : spec_float) : SF64mul x y = SF64mul y x.
Proof.
  unfold SF64mul, SFmul.
  destruct x as [sx | sx | | sx mx ex], y as [sy | sy | | sy my ey];
    try reflexivity; try (rewrite xorb_comm; reflexivity).
  rewrite xorb_comm, Pos.mul_comm, Z.add_comm. reflexivity.
Qed.

Lemma SFsub_add_opp (x y : spec_float) : SF64sub x y = SF64add x (SFopp y).
Proof.
  unfold SF64sub, SF64add, SFsub, SFadd, SFopp.
  destruct x as [sx | sx | | sx mx ex], y as [sy | sy | | sy my ey];
    try reflexivity; destruct sx, sy; reflexivity.
Qed.

Lemma float_add_comm (a b : float) : (a + b = b + a)%float.
Proof. apply Prim2SF_inj. rewrite !add_spec. apply SFadd_comm. Qed.

Lemma float_mul_comm (a b : float) : (a * b = b * a)%float.
Proof. apply Prim2SF_inj. rewrite !mul_spec. apply SFmul_comm. Qed.

Lemma float_sub_add_opp (a b : float) : (a - b = a + - b)%float.
Proof. apply Prim2SF_inj. rewrite sub_spec, add_spec, opp_spec. apply SFsub_add_opp. Qed.

(** X10. The order of the operands does not matter to [add] and
    [multiply], and [subtract] is [add] of the negated operand: for all
    floats, the zeros of either sign, the infinities and NaN included. *)
Theorem add_and_multiply_commute :
  forall (g : Globals) (a b : float),
    add g a b = add g b a /\
    multiply g a b = multiply g b a /\
    subtract g a b = add g a (- b).
Proof.
  intros g a b. unfold add, subtract, multiply.
  rewrite (float_add_comm a b), (float_mul_comm a b), (float_sub_add_opp a b).
  repeat split.
Qed.

Lemma operator_add_comm {host : Host} (a b : value) :
  is_real a = true -> is_real b = true -> Operator.add a b = Operator.add b a.
Proof.
  intros Ha Hb. unfold Operator.add, Operator.real_binop.
  destruct a; try discriminate; destruct b; try discriminate;
    unfold Operator.as_real, Operator.to_float; cbv iota;
    try (rewrite Z.add_comm; reflexivity);
    try (destruct (int_to_float _); cbn [bind]; [rewrite float_add_comm |]; reflexivity).
  cbn [bind]. rewrite float_add_comm. reflexivity.
Qed.

Lemma operator_mul_comm {host : Host} (a b : value) :
  is_real a = true -> is_real b = true -> Operator.mul a b = Operator.mul b a.
Proof.
  intros Ha Hb. unfold Operator.mul, Operator.real_binop.
  destruct a; try discriminate; destruct b; try discriminate;
    unfold Operator.as_real, Operator.to_float; cbv iota;
    try (rewrite Z.mul_comm; reflexivity);
    try (destruct (int_to_float _); cbn [bind]; [rewrite float_mul_comm |]; reflexivity).
  cbn [bind]. rewrite float_mul_comm. reflexivity.
Qed.

(** X11. In an expression, the operands of [+] and of [*] can be
    exchanged when both reduce to reals ([bool], [int] or [float]): the
    walk gives the same value or raises the same exception, also when an
    [int] is too large for the [float] next to it. *)
Theorem operands_commute_in_expressions :
  forall (host : Host) (l r : expr) (vl vr : value),
    eval_expr l = Ok vl -> eval_expr r = Ok vr ->
    is_real vl = true -> is_real vr = true ->
    eval_expr (BinOp l Add r) = eval_expr (BinOp r Add l) /\
    eval_expr (BinOp l Mult r) = eval_expr (BinOp r Mult l).
Proof.
  intros host l r vl vr Hl Hr Hvl Hvr. cbn [eval_expr].
  rewrite Hl, Hr. cbn [bind operators_binary]. split.
  - apply operator_add_comm; assumption.
  - apply operator_mul_comm; assumption.
Qed.

Lemma operands_commute_in_expressions_witness :
  @eval_expr reference_host
    (BinOp (BinOp (Constant (VInt 10)) Pow (Constant (VInt 400))) Add (Constant (VFloat 0.5)))
  = @eval_expr reference_host
      (BinOp (Constant (VFloat 0.5)) Add (BinOp (Constant (VInt 10)) Pow (Constant (VInt 400))))
  /\
  @eval_expr reference_host (BinOp (Constant (VBool true)) Mult (Constant (VFloat 2.5)))
  = @eval_expr reference_host (BinOp (Constant (VFloat 2.5)) Mult (Constant (VBool true))).
Proof.
  split.
  - exact (proj1 (operands_commute_in_expressions reference_host
                    (BinOp (Constant (VInt 10)) Pow (Constant (VInt 400)))
                    (Constant (VFloat 0.5)) (VInt (10 ^ 400)) (VFloat 0.5)
                    eq_refl eq_refl eq_refl eq_refl)).
  - exact (proj2 (operands_commute_in_expressions reference_host
                    (Constant (VBool true)) (Constant (VFloat 2.5)) (VBool true) (VFloat 2.5)
                    eq_refl eq_refl eq_refl eq_refl)).
Defined.

(** *** The square root *)

Lemma iter_pos_invariant {A : Type} (P : A -> Prop) (f : A -> A) :
  (forall x, P x -> P (f x)) -> forall p x, P x -> P (iter_pos f p x).
Proof.
  intros Hf. induction p as [p IH | p IH |]; intros x Hx; cbn [iter_pos]; auto.
Qed.

Lemma shr_1_nonneg (mrs : shr_record) : 0 <= shr_m mrs -> 0 <= shr_m (shr_1 mrs).
Proof.
  destruct mrs as [m r s]. cbn [shr_m]. intros Hm.
  destruct m as [| p | p]; [| | lia]; [| destruct p]; cbn; lia.
Qed.

Lemma shr_fexp_nonneg (m e : Z) (l : location) :
  0 <= m -> 0 <= shr_m (fst (shr_fexp prec emax m e l)).
Proof.
  intros Hm. unfold shr_fexp, shr.
  assert (H0 : 0 <= shr_m (shr_record_of_loc m l))
    by (destruct l as [| []]; exact Hm).
  destruct (_ - e)%Z; cbn [fst]; try exact H0.
  apply (iter_pos_invariant (fun mrs => 0 <= shr_m mrs)); [apply shr_1_nonneg | exact H0].
Qed.

(** Rounding a mantissa that is not negative never gives a NaN. *)
Lemma binary_round_aux_not_nan (sx : bool) (mx ex : Z) (lx : location) :
  0 <= mx -> binary_round_aux prec emax sx mx ex lx <> S754_nan.
Proof.
  intros Hm. unfold binary_round_aux.
  pose proof (shr_fexp_nonneg mx ex lx Hm) as H1.
  destruct (shr_fexp prec emax mx ex lx) as [mrs' e']. cbn [fst] in H1.
  set (m1 := round_nearest_even (shr_m mrs') (loc_of_shr_record mrs')).
  assert (Hm1 : 0 <= m1).
  { unfold m1, round_nearest_even.
    destruct (loc_of_shr_record mrs') as [| []]; try destruct (Z.even _); lia. }
  pose proof (shr_fexp_nonneg m1 e' loc_Exact Hm1) as H2.
  destruct (shr_fexp prec emax m1 e' loc_Exact) as [mrs'' e'']. cbn [fst] in H2.
  destruct (shr_m mrs'') as [| p | p]; [discriminate | | lia].
  destruct (_ <=? _)%Z; discriminate.
Qed.

Lemma SFsqrt_not_nan (m : positive) (e : Z) :
  SF64sqrt (S754_finite false m e) <> S754_nan.
Proof.
  unfold SF64sqrt, SFsqrt, SFsqrt_core_binary.
  set (m' := match (e - 2 * _)%Z with Zpos _ => _ | Z0 => _ | Zneg _ => _ end).
  assert (Hm' : 0 <= m').
  { unfold m'. destruct (e - 2 * _)%Z; try lia. apply Z.shiftl_nonneg. lia. }
  pose proof (Z.sqrtrem_spec m' Hm') as Hs.
  destruct (Z.sqrtrem m') as [q r].
  apply binary_round_aux_not_nan.
  destruct Hs as [_ Hr]. lia.
Qed.

Lemma is_nan_spec (x : float) : is_nan x = true <-> Prim2SF x = S754_nan.
Proof.
  unfold is_nan. rewrite eqb_spec. unfold SFeqb, SFcompare.
  destruct (Prim2SF x) as [s | s | | s m e]; simpl.
  - split; discriminate.
  - destruct s; split; discriminate.
  - split; reflexivity.
  - rewrite Z.compare_refl, Pos.compare_cont_refl. destruct s; simpl; split; discriminate.
Qed.

(** [math.sqrt] raises on no argument that passes the guard of [sqrt]. *)
Lemma math_sqrt_returns (n : float) :
  (n <? 0)%float = false -> math_sqrt n = Ok (PrimFloat.sqrt n).
Proof.
  intros Hn. unfold math_sqrt.
  destruct (is_nan (PrimFloat.sqrt n)) eqn:Hs; [| reflexivity].
  destruct (is_nan n) eqn:Hx; [reflexivity | exfalso].
  apply is_nan_spec in Hs. rewrite sqrt_spec in Hs.
  rewrite ltb_spec in Hn.
  replace (Prim2SF 0) with (S754_zero false) in Hn by reflexivity.
  assert (Hx' : Prim2SF n <> S754_nan)
    by (intros E; apply is_nan_spec in E; congruence).
  destruct (Prim2SF n) as [s | s | | s m e].
  - discriminate.
  - destruct s; discriminate.
  - congruence.
  - destruct s; [discriminate |]. exact (SFsqrt_not_nan m e Hs).
Qed.

(** X12. [sqrt] never raises when the precision is not negative: the
    guard [n < 0] covers every argument on which [math.sqrt] has a domain
    error (minus infinity included), so that [sqrt] returns its error
    string for [n < 0] and a float for every other argument (NaN for
    NaN). *)
Theorem sqrt_returns_the_error_or_a_float :
  forall (g : Globals) (n : float),
    0 <= MAX_PRECISION g ->
    ((n <? 0)%float = true /\
     sqrt g n = Ok (VStr "Error: Cannot calculate square root of negative number")) \/
    ((n <? 0)%float = false /\
     math_sqrt n = Ok (PrimFloat.sqrt n) /\
     exists r, sqrt g n = Ok (VFloat r)).
Proof.
  intros g n Hp. unfold sqrt.
  destruct (n <? 0)%float eqn:Hn; [left; split; reflexivity | right].
  split; [reflexivity |].
  pose proof (math_sqrt_returns n Hn) as Hm.
  split; [exact Hm |]. rewrite Hm. cbn [bind].
  apply round_float_returns. exact Hp.
Qed.

Lemma sqrt_returns_the_error_or_a_float_witness :
  0 <= MAX_PRECISION default_globals /\
  sqrt default_globals neg_infinity
    = Ok (VStr "Error: Cannot calculate square root of negative number") /\
  (exists r, sqrt default_globals nan = Ok (VFloat r)) /\
  (exists r, sqrt default_globals (-0) = Ok (VFloat r)).
Proof.
  assert (H : 0 <= MAX_PRECISION default_globals) by (simpl; lia).
  split; [exact H |]. split; [| split].
  - destruct (sqrt_returns_the_error_or_a_float default_globals neg_infinity H)
      as [[_ Hr] | [Hn _]]; [exact Hr | discriminate Hn].
  - destruct (sqrt_returns_the_error_or_a_float default_globals nan H)
      as [[Hn _] | [_ [_ Hr]]]; [discriminate Hn | exact Hr].
  - destruct (sqrt_returns_the_error_or_a_float default_globals (-0) H)
      as [[Hn _] | [_ [_ Hr]]]; [discriminate Hn | exact Hr].
Defined.

(** *** The floats of the model are binary64 numbers *)

Lemma rne_div_ge_bound (a b n : Z) : 0 < b -> n * b <= a -> n <= rne_div a b.
Proof.
  intros Hb Ha. unfold rne_div.
  pose proof (Z.div_mod a b ltac:(lia)) as Hdm.
  pose proof (Z.mod_pos_bound a b Hb) as Hr.
  assert (n <= a / b) by (apply Z.div_le_lower_bound; lia).
  destruct (2 * (a mod b) ?= b); try destruct (Z.even (a / b)); lia.
Qed.

(** [floor_log2_ratio p q] is the integer part of the binary logarithm of
    [p / q]: the two bounds, with powers of two on the side that keeps
    them integers. *)
Lemma floor_log2_ratio_le (p q a b : Z) :
  0 < p -> 0 < q -> 0 <= a -> 0 <= b ->
  b - a <= floor_log2_ratio p q -> q * 2 ^ b <= p * 2 ^ a.
Proof.
  intros Hp Hq Ha Hb. unfold floor_log2_ratio, ratio_ge_pow2.
  pose proof (Z.log2_spec p Hp) as [Hp1 _].
  pose proof (Z.log2_spec q Hq) as [_ Hq2].
  pose proof (Z.log2_nonneg p) as Hlp. pose proof (Z.log2_nonneg q) as Hlq.
  set (l := Z.log2 p - Z.log2 q) in *.
  assert (H2a : 0 < 2 ^ a) by (apply Z.pow_pos_nonneg; lia).
  assert (H2b : 0 < 2 ^ b) by (apply Z.pow_pos_nonneg; lia).
  assert (Hlogs : b - a <= l - 1 -> q * 2 ^ b <= p * 2 ^ a).
  { intros Hba.
    assert (H1 : 2 ^ (Z.succ (Z.log2 q) + b) <= 2 ^ (Z.log2 p + a))
      by (apply Z.pow_le_mono_r; lia).
    rewrite !Z.pow_add_r in H1 by lia. nia. }
  destruct (0 <=? l) eqn:Hl.
  - apply Z.leb_le in Hl. destruct (q * 2 ^ l <=? p) eqn:Ht; intros Hba.
    + apply Z.leb_le in Ht.
      assert (H1 : 2 ^ b <= 2 ^ (l + a)) by (apply Z.pow_le_mono_r; lia).
      rewrite Z.pow_add_r in H1 by lia.
      assert (0 < 2 ^ l) by (apply Z.pow_pos_nonneg; lia). nia.
    + apply Hlogs. lia.
  - apply Z.leb_gt in Hl. destruct (q <=? p * 2 ^ (- l)) eqn:Ht; intros Hba.
    + apply Z.leb_le in Ht.
      assert (H1 : 2 ^ (- l + b) <= 2 ^ a) by (apply Z.pow_le_mono_r; lia).
      rewrite Z.pow_add_r in H1 by lia.
      assert (0 < 2 ^ (- l)) by (apply Z.pow_pos_nonneg; lia). nia.
    + apply Hlogs. lia.
Qed.

Lemma floor_log2_ratio_lt (p q a b : Z) :
  0 < p -> 0 < q -> 0 <= a -> 0 <= b ->
  floor_log2_ratio p q + 1 <= b - a -> p * 2 ^ a < q * 2 ^ b.
Proof.
  intros Hp Hq Ha Hb. unfold floor_log2_ratio, ratio_ge_pow2.
  pose proof (Z.log2_spec p Hp) as [_ Hp2].
  pose proof (Z.log2_spec q Hq) as [Hq1 _].
  pose proof (Z.log2_nonneg p) as Hlp. pose proof (Z.log2_nonneg q) as Hlq.
  set (l := Z.log2 p - Z.log2 q) in *.
  assert (H2a : 0 < 2 ^ a) by (apply Z.pow_pos_nonneg; lia).
  assert (H2b : 0 < 2 ^ b) by (apply Z.pow_pos_nonneg; lia).
  assert (Hlogs : l + 1 <= b - a -> p * 2 ^ a < q * 2 ^ b).
  { intros Hba.
    assert (H1 : 2 ^ (Z.succ (Z.log2 p) + a) <= 2 ^ (Z.log2 q + b))
      by (apply Z.pow_le_mono_r; lia).
    rewrite !Z.pow_add_r in H1 by lia. nia. }
  destruct (0 <=? l) eqn:Hl.
  - apply Z.leb_le in Hl. destruct (q * 2 ^ l <=? p) eqn:Ht; intros Hba.
    + apply Hlogs. lia.
    + apply Z.leb_gt in Ht.
      assert (H1 : 2 ^ (l + a) <= 2 ^ b) by (apply Z.pow_le_mono_r; lia).
      rewrite Z.pow_add_r in H1 by lia.
      assert (0 < 2 ^ l) by (apply Z.pow_pos_nonneg; lia). nia.
  - apply Z.leb_gt in Hl. destruct (q <=? p * 2 ^ (- l)) eqn:Ht; intros Hba.
    + apply Hlogs. lia.
    + apply Z.leb_gt in Ht.
      assert (H1 : 2 ^ a <= 2 ^ (- l + b)) by (apply Z.pow_le_mono_r; lia).
      rewrite Z.pow_add_r in H1 by lia.
      assert (0 < 2 ^ (- l)) by (apply Z.pow_pos_nonneg; lia). nia.
Qed.

Lemma digits2_pos_lower (m : positive) : 2 ^ (Zpos (digits2_pos m) - 1) <= Zpos m.
Proof.
  induction m as [m IH | m IH |]; cbn [digits2_pos].
  - rewrite Pos2Z.inj_succ. replace (Z.succ (Zpos (digits2_pos m)) - 1)
      with (Z.succ (Zpos (digits2_pos m) - 1)) by lia.
    rewrite Z.pow_succ_r by lia. lia.
  - rewrite Pos2Z.inj_succ. replace (Z.succ (Zpos (digits2_pos m)) - 1)
      with (Z.succ (Zpos (digits2_pos m) - 1)) by lia.
    rewrite Z.pow_succ_r by lia. lia.
  - reflexivity.
Qed.

(** A mantissa of 53 bits is canonical at every exponent from [-1074];
    a shorter one at [-1074]. *)
Lemma canonical_normal (m : positive) (e : Z) :
  2 ^ 52 <= Zpos m < 2 ^ 53 -> -1074 <= e ->
  canonical_mantissa prec emax m e = true.
Proof.
  intros [Hlo Hhi] He. unfold canonical_mantissa, fexp, SpecFloat.emin, prec, emax.
  pose proof (digits2_pos_bound m) as Hu. pose proof (digits2_pos_lower m) as Hl.
  assert (Hd : Zpos (digits2_pos m) = 53).
  { destruct (Z.lt_trichotomy (Zpos (digits2_pos m)) 53) as [H | [H | H]]; [| exact H |].
    - assert (2 ^ Zpos (digits2_pos m) <= 2 ^ 52) by (apply Z.pow_le_mono_r; lia). lia.
    - assert (2 ^ 53 <= 2 ^ (Zpos (digits2_pos m) - 1)) by (apply Z.pow_le_mono_r; lia). lia. }
  rewrite Hd. apply Z.eqb_eq. lia.
Qed.

Lemma canonical_subnormal (m : positive) :
  Zpos m < 2 ^ 52 -> canonical_mantissa prec emax m (-1074) = true.
Proof.
  intros Hhi. unfold canonical_mantissa, fexp, SpecFloat.emin, prec, emax.
  pose proof (digits2_pos_lower m) as Hl.
  assert (Hd : Zpos (digits2_pos m) <= 52).
  { destruct (Z.le_gt_cases (Zpos (digits2_pos m)) 52) as [H | H]; [exact H |].
    assert (2 ^ 52 <= 2 ^ (Zpos (digits2_pos m) - 1)) by (apply Z.pow_le_mono_r; lia). lia. }
  apply Z.eqb_eq. lia.
Qed.

(** Every number that [binary64_of_ratio] builds is a binary64 number. *)
Lemma binary64_of_ratio_valid (s : bool) (p q : Z) :
  0 <= p -> 0 < q -> valid_binary (binary64_of_ratio s p q) = true.
Proof.
  intros Hp Hq. unfold binary64_of_ratio.
  destruct (p =? 0) eqn:Hp0; [reflexivity |].
  apply Z.eqb_neq in Hp0. assert (Hp' : 0 < p) by lia.
  set (fl := floor_log2_ratio p q).
  set (e := Z.max (fl - 52) (-1074)).
  set (m := if 0 <=? e then rne_div p (q * 2 ^ e) else rne_div (p * 2 ^ (- e)) q).
  assert (H53 : 0 < 2 ^ 53) by (apply Z.pow_pos_nonneg; lia).
  assert (H52 : 2 ^ 53 = 2 * 2 ^ 52) by reflexivity.
  assert (Hupper : m <= 2 ^ 53).
  { unfold m. destruct (0 <=? e) eqn:He.
    - apply Z.leb_le in He.
      assert (0 < 2 ^ e) by (apply Z.pow_pos_nonneg; lia).
      apply rne_div_le_bound; [nia |].
      pose proof (floor_log2_ratio_lt p q 0 (e + 53) Hp' Hq ltac:(lia) ltac:(lia)
                    ltac:(fold fl; lia)) as Hb.
      rewrite Z.pow_0_r, Z.pow_add_r in Hb by lia. nia.
    - apply Z.leb_gt in He.
      apply rne_div_le_bound; [exact Hq |].
      pose proof (floor_log2_ratio_lt p q (- e) 53 Hp' Hq ltac:(lia) ltac:(lia)
                    ltac:(fold fl; lia)) as Hb.
      lia. }
  assert (Hlower : -1074 < e -> 2 ^ 52 <= m).
  { intros Hn. unfold m. destruct (0 <=? e) eqn:He.
    - apply Z.leb_le in He.
      assert (0 < 2 ^ e) by (apply Z.pow_pos_nonneg; lia).
      apply rne_div_ge_bound; [nia |].
      pose proof (floor_log2_ratio_le p q 0 (e + 52) Hp' Hq ltac:(lia) ltac:(lia)
                    ltac:(fold fl; lia)) as Hb.
      rewrite Z.pow_0_r, Z.pow_add_r in Hb by lia. nia.
    - apply Z.leb_gt in He.
      apply rne_div_ge_bound; [exact Hq |].
      pose proof (floor_log2_ratio_le p q (- e) 52 Hp' Hq ltac:(lia) ltac:(lia)
                    ltac:(fold fl; lia)) as Hb.
      lia. }
  assert (Hsub : e = -1074 -> fl - 52 < -1074 -> m <= 2 ^ 52).
  { intros He Hfl. unfold m. rewrite He. change (0 <=? -1074) with false. cbv iota.
    apply rne_div_le_bound; [exact Hq |].
    pose proof (floor_log2_ratio_lt p q 1074 52 Hp' Hq ltac:(lia) ltac:(lia)
                  ltac:(fold fl; lia)) as Hb.
    change (- -1074) with 1074. lia. }
  assert (He_low : -1074 <= e) by lia.
  destruct (m =? 2 ^ 53) eqn:Hm53.
  - change (2 ^ 52) with (Zpos (2 ^ 52)%positive). cbv iota beta.
    destruct (e + 1 <=? 971) eqn:Hle; [| reflexivity].
    cbn [SpecFloat.valid_binary]. unfold bounded.
    apply andb_true_iff. split; [| exact Hle].
    apply canonical_normal; [split; [apply Z.le_refl | reflexivity] | lia].
  - apply Z.eqb_neq in Hm53.
    destruct m as [| mp | mp] eqn:Hm; [reflexivity | | reflexivity].
    destruct (e <=? 971) eqn:Hle; [| reflexivity].
    cbn [SpecFloat.valid_binary]. unfold bounded.
    apply andb_true_iff. split; [| exact Hle].
    destruct (Z_lt_le_dec (Zpos mp) (2 ^ 52)) as [Hs | Hn].
    + assert (He : e = -1074).
      { destruct (Z.eq_dec e (-1074)) as [E | E]; [exact E |].
        specialize (Hlower ltac:(lia)). lia. }
      rewrite He. apply canonical_subnormal. exact Hs.
    + apply canonical_normal; [split; lia | lia].
Qed.

Lemma binary64_of_ratio_not_negative (p q : Z) :
  SFltb (binary64_of_ratio false p q) (S754_zero false) = false.
Proof.
  unfold binary64_of_ratio. destruct (p =? 0); [reflexivity |].
  destruct (_ =? 2 ^ 53).
  - change (2 ^ 52) with (Zpos (2 ^ 52)%positive). cbv iota beta.
    destruct (_ <=? 971); reflexivity.
  - destruct (if 0 <=? _ then _ else _); try reflexivity.
    destruct (_ <=? 971); reflexivity.
Qed.

Lemma binary_round_aux_not_negative (m e : Z) (l : location) :
  SFltb (binary_round_aux prec emax false m e l) (S754_zero false) = false.
Proof.
  unfold binary_round_aux.
  destruct (shr_fexp prec emax m e l) as [mrs' e'].
  destruct (shr_fexp prec emax _ e' loc_Exact) as [mrs'' e''].
  destruct (shr_m mrs''); try reflexivity.
  destruct (_ <=? _)%Z; reflexivity.
Qed.

Lemma sqrt_not_negative (n : float) :
  (n <? 0)%float = false -> (PrimFloat.sqrt n <? 0)%float = false.
Proof.
  rewrite !ltb_spec, sqrt_spec.
  replace (Prim2SF 0) with (S754_zero false) by reflexivity.
  destruct (Prim2SF n) as [s | s | | s m e]; try reflexivity.
  - destruct s; [discriminate | reflexivity].
  - destruct s; [discriminate | intros _].
    unfold SF64sqrt, SFsqrt. destruct (SFsqrt_core_binary _ _ _ _) as [[mz ez] lz].
    apply binary_round_aux_not_negative.
Qed.

(** Rounding to digits keeps a float that is not negative so. *)
Lemma float_round_not_negative (x r : float) (ndigits : Z) :
  0 <= ndigits -> (x <? 0)%float = false -> float_round x ndigits = Ok r ->
  (r <? 0)%float = false.
Proof.
  intros Hn Hx. unfold float_round.
  pose proof Hx as Hx'. rewrite ltb_spec in Hx'.
  replace (Prim2SF 0) with (S754_zero false) in Hx' by reflexivity.
  destruct (Prim2SF x) as [s | s | | s m e] eqn:Ex;
    try (intros H; injection H as <-; exact Hx).
  destruct s; [discriminate |].
  destruct (ndigits >? NDIGITS_MAX); [intros H; injection H as <-; exact Hx |].
  replace (ndigits <? NDIGITS_MIN) with false
    by (symmetry; apply Z.ltb_ge; unfold NDIGITS_MIN; lia).
  unfold double_round.
  set (p := rne_div _ _ * _). set (q := 10 ^ Z.max ndigits 0).
  assert (Hq : 0 < q) by (apply Z.pow_pos_nonneg; lia).
  assert (Hp : 0 <= p).
  { unfold p.
    assert (0 < 10 ^ Z.max (- ndigits) 0) by (apply Z.pow_pos_nonneg; lia).
    assert (0 < 2 ^ Z.max (- e) 0) by (apply Z.pow_pos_nonneg; lia).
    assert (0 <= 2 ^ Z.max e 0) by (apply Z.pow_nonneg; lia).
    assert (0 <= 10 ^ Z.max ndigits 0) by (apply Z.pow_nonneg; lia).
    apply Z.mul_nonneg_nonneg; [| lia].
    apply rne_div_ge_bound; [nia | nia]. }
  pose proof (binary64_of_ratio_valid false p q Hp Hq) as Hv.
  pose proof (binary64_of_ratio_not_negative p q) as Hs.
  assert (Hy : forall y, valid_binary y = true -> SFltb y (S754_zero false) = false ->
                         (SF2Prim y <? 0)%float = false).
  { intros y Hvy Hsy. rewrite ltb_spec, (Prim2SF_SF2Prim _ Hvy).
    replace (Prim2SF 0) with (S754_zero false) by reflexivity. exact Hsy. }
  destruct (binary64_of_ratio false p q) as [s' | s' | | s' m' e'] eqn:Eb;
    try discriminate; intros H; injection H as <-; apply (Hy _ Hv Hs).
Qed.

(** X13. A result of [sqrt] is never negative, so that [sqrt] can be
    applied to it again without meeting its error: the rounding to a
    number of digits that is not negative keeps the sign of the root. *)
Theorem sqrt_of_a_result_of_sqrt :
  forall (g : Globals) (n r : float),
    0 <= MAX_PRECISION g ->
    sqrt g n = Ok (VFloat r) ->
    (r <? 0)%float = false /\ exists r', sqrt g r = Ok (VFloat r').
Proof.
  intros g n r Hp H.
  assert (Hr : (r <? 0)%float = false).
  { unfold sqrt in H. destruct (n <? 0)%float eqn:Hn; [discriminate |].
    rewrite (math_sqrt_returns n Hn) in H. cbn [bind round] in H.
    destruct (float_round (PrimFloat.sqrt n) (MAX_PRECISION g)) as [y | e] eqn:Hy;
      cbn [bind] in H; [| discriminate].
    injection H as <-.
    exact (float_round_not_negative _ _ _ Hp (sqrt_not_negative n Hn) Hy). }
  split; [exact Hr |].
  unfold sqrt. rewrite Hr, (math_sqrt_returns r Hr). cbn [bind].
  apply round_float_returns. exact Hp.
Qed.

Lemma sqrt_of_a_result_of_sqrt_witness :
  0 <= MAX_PRECISION default_globals /\
  sqrt default_globals 2 = Ok (VFloat 0x1.6a09e6681151ep+0) /\
  (0x1.6a09e6681151ep+0 <? 0)%float = false /\
  exists r', sqrt default_globals 0x1.6a09e6681151ep+0 = Ok (VFloat r').
Proof.
  assert (Hp : 0 <= MAX_PRECISION default_globals) by (simpl; lia).
  assert (H2 : sqrt default_globals 2 = Ok (VFloat 0x1.6a09e6681151ep+0))
    by (vm_compute; reflexivity).
  split; [exact Hp |]. split; [exact H2 |].
  exact (sqrt_of_a_result_of_sqrt default_globals 2 0x1.6a09e6681151ep+0 Hp H2).
Defined.

Lemma float_opp_involutive (x : float) : (- - x = x)%float.
Proof.
  apply Prim2SF_inj. rewrite !opp_spec.
  destruct (Prim2SF x) as [s | s | | s m e]; simpl; try rewrite negb_involutive; reflexivity.
Qed.

(** X14. Two negations cancel in an expression: when the operand reduces
    to a real, [calculate] returns for [- - t] what it returns for [t]
    (the [int] of a [bool], as the rounding gives it). *)
Theorem double_negation_cancels :
  forall (host : Host) (g : Globals) (e e' : string) (t : expr) (v : value),
    ast_parse e = Ok (UnaryOp USub (UnaryOp USub t)) ->
    ast_parse e' = Ok t ->
    eval_expr t = Ok v -> is_real v = true ->
    calculate g e = calculate g e'.
Proof.
  intros host g e e' t v He He' Ht Hv.
  unfold calculate, calculate_body. rewrite He, He'. cbn [bind eval_expr].
  rewrite Ht. cbn [bind operators_unary]. f_equal.
  destruct v; try discriminate; cbn.
  - rewrite Z.opp_involutive. reflexivity.
  - rewrite Z.opp_involutive. reflexivity.
  - rewrite float_opp_involutive. reflexivity.
Qed.

Lemma double_negation_cancels_witness :
  @calculate reference_host default_globals "- -(True / 3)"
  = @calculate reference_host default_globals "True / 3".
Proof.
  exact (double_negation_cancels reference_host default_globals
           "- -(True / 3)" "True / 3"
           (BinOp (Constant (VBool true)) Div (Constant (VInt 3)))
           (VFloat 0x1.5555555555555p-2) eq_refl eq_refl eq_refl eq_refl).
Defined.

(** *** NaN *)

Lemma is_nan_eq (x : float) : is_nan x = true -> x = nan.
Proof.
  intros H. apply is_nan_spec in H.
  rewrite <- (SF2Prim_Prim2SF x), H. reflexivity.
Qed.

Lemma nan_absorbs (a b : float) :
  is_nan a = true \/ is_nan b = true ->
  (a + b = nan /\ a - b = nan /\ a * b = nan /\ a / b = nan)%float.
Proof.
  intros H.
  assert (Hs : Prim2SF a = S754_nan \/ Prim2SF b = S754_nan)
    by (destruct H as [H | H]; apply is_nan_spec in H; auto).
  repeat split; apply Prim2SF_inj;
    rewrite ?add_spec, ?sub_spec, ?mul_spec, ?div_spec;
    replace (Prim2SF nan) with S754_nan by reflexivity;
    destruct Hs as [-> | ->]; try reflexivity;
    destruct (Prim2SF a); reflexivity.
Qed.

(** X15. NaN goes through the tools as a number: with a NaN operand,
    [add], [subtract] and [multiply] return NaN, [divide] returns NaN
    unless the divisor is zero, and [sqrt] of NaN is NaN, under every
    precision; none of them turns it into an error. *)
Theorem nan_is_returned_as_a_number :
  forall (g : Globals) (a b : float),
    is_nan a = true \/ is_nan b = true ->
    add g a b = Ok (VFloat nan) /\
    subtract g a b = Ok (VFloat nan) /\
    multiply g a b = Ok (VFloat nan) /\
    ((b =? 0)%float = false -> divide g a b = Ok (VFloat nan)) /\
    sqrt g nan = Ok (VFloat nan).
Proof.
  intros g a b H. destruct (nan_absorbs a b H) as [Ha [Hs [Hm Hd]]].
  unfold add, subtract, multiply, divide, float_truediv.
  rewrite Ha, Hs, Hm. repeat split.
  intros ->. cbn [bind]. rewrite Hd. reflexivity.
Qed.

Lemma nan_is_returned_as_a_number_witness :
  add default_globals nan 1 = Ok (VFloat nan) /\
  multiply default_globals 0 (infinity - infinity) = Ok (VFloat nan) /\
  divide default_globals 1 nan = Ok (VFloat nan).
Proof.
  split; [| split].
  - exact (proj1 (nan_is_returned_as_a_number default_globals nan 1
                    (or_introl eq_refl))).
  - exact (proj1 (proj2 (proj2 (nan_is_returned_as_a_number default_globals 0
                                  (infinity - infinity) (or_intror eq_refl))))).
  - exact (proj1 (proj2 (proj2 (proj2 (nan_is_returned_as_a_number default_globals 1 nan
                                         (or_intror eq_refl))))) eq_refl).
Defined.


